(** * YapperJS: the llama-server supervisor of the Express backend

    A shallow embedding of the request handlers and child-process callbacks
    of the backend (server.js): the argument build loop of
    [POST /start-server], the three globals [llamaServerProcess],
    [serverStatus] and [serverLogs], and the handlers that read and write
    them.  The handlers contain no [await], so each runs to completion on
    the Node event loop before the next callback starts; a handler is
    therefore modelled as one function from the state before to the reply
    and the state after. *)

From Stdlib Require Import ZArith Lia.
From stdpp Require Import base option list strings pretty gmap.

Local Set Warnings "-register-all".
Local Open Scope Z_scope.
Local Open Scope list_scope.

(** ** JavaScript values *)

Module JS.

(** The values a parsed request body or the parsed flag catalogue can hold,
    plus [undefined] (the result of reading a missing property).  A number
    that is a safe integer (at most 2^53 - 1 in magnitude, with -0 taken
    for 0) is [JNum n]; every other number (a fraction, an integer beyond
    the safe range, an infinity from an overflowing literal) is [JFloat]
    with the text [String] prints for it, such as "0.8", "1e+21" or
    "Infinity": that text tells two such numbers apart exactly as [===]
    does.  A string is held as its UTF-8 bytes. *)
Inductive value : Type :=
| JUndefined
| JNull
| JBool (b : bool)
| JNum (n : Z)
| JFloat (printed : string)
| JString (s : string)
| JArray (items : list value)
| JObject (fields : list (string * value)).

(** [typeof v] *)
Definition typeof (v : value) : string :=
  match v with
  | JUndefined => "undefined"
  | JNull => "object"
  | JBool _ => "boolean"
  | JNum _ => "number"
  | JFloat _ => "number"
  | JString _ => "string"
  | JArray _ => "object"
  | JObject _ => "object"
  end.

(** [a === b].  Primitives compare by type and value.  Arrays and objects
    compare by identity: the two sides of every [===] of the backend come
    from different allocations (a request body against a literal or against
    the separately parsed catalogue), so the comparison of two of them is
    [false]. *)
Definition strict_eq (a b : value) : bool :=
  match a, b with
  | JUndefined, JUndefined => true
  | JNull, JNull => true
  | JBool x, JBool y => Bool.eqb x y
  | JNum x, JNum y => Z.eqb x y
  | JFloat x, JFloat y => String.eqb x y
  | JString x, JString y => String.eqb x y
  | _, _ => false
  end.

(** [a !== b] *)
Definition strict_ne (a b : value) : bool := negb (strict_eq a b).

(** Truthiness, as [if (v)], [!v] and the callback of [some] test it. *)
Definition truthy (v : value) : bool :=
  match v with
  | JUndefined => false
  | JNull => false
  | JBool b => b
  | JNum n => negb (Z.eqb n 0)
  | JFloat _ => true
  | JString s => negb (String.eqb s "")
  | JArray _ => true
  | JObject _ => true
  end.

(** What [String(v)] returns, when it returns ([String_throws] below tells
    when it throws instead).  An array prints its elements joined by commas,
    with [null] and [undefined] elements printed as nothing. *)
Fixpoint ToString (v : value) : string :=
  match v with
  | JUndefined => "undefined"
  | JNull => "null"
  | JBool true => "true"
  | JBool false => "false"
  | JNum n => pretty n
  | JFloat printed => printed
  | JString s => s
  | JArray items =>
      (fix join (l : list value) : string :=
         match l with
         | [] => ""
         | x :: rest =>
             let here :=
               match x with
               | JUndefined | JNull => ""
               | _ => ToString x
               end in
             match rest with
             | [] => here
             | _ :: _ => here +:+ "," +:+ join rest
             end
         end) items
  | JObject _ => "[object Object]"
  end.

(** Whether [String(v)] throws a [TypeError].  A parsed object with an own
    property named "toString" has a property there that is not callable, and
    [Object.prototype.valueOf] hands back the object itself, so the
    conversion to a primitive fails; without such a property
    [Object.prototype.toString] answers.  An array converts its elements in
    turn, so it throws when one of them does. *)
Fixpoint String_throws (v : value) : bool :=
  match v with
  | JObject fields =>
      existsb (fun field => String.eqb (fst field) "toString") fields
  | JArray items =>
      (fix some (l : list value) : bool :=
         match l with
         | [] => false
         | x :: rest => String_throws x || some rest
         end) items
  | _ => false
  end.

(** The message of that [TypeError]. *)
Definition not_primitive : string :=
  "Cannot convert object to primitive value".

(** [Number.isSafeInteger(n)] *)
Definition is_safe_integer (n : Z) : bool :=
  Z.leb (Z.abs n) (2 ^ 53 - 1).

(** The values that stand for a parsed value: every [JNum] in them, at any
    depth, is a safe integer (the other numbers being [JFloat]). *)
Fixpoint well_formed (v : value) : bool :=
  match v with
  | JNum n => is_safe_integer n
  | JArray items =>
      (fix all (l : list value) : bool :=
         match l with
         | [] => true
         | x :: rest => well_formed x && all rest
         end) items
  | JObject fields =>
      (fix all (l : list (string * value)) : bool :=
         match l with
         | [] => true
         | (_, x) :: rest => well_formed x && all rest
         end) fields
  | _ => true
  end.

(** [obj[key]] on an object given by its own enumerable properties in
    [Object.entries] order; a missing property reads as [undefined]. *)
Fixpoint get (obj : list (string * value)) (key : string) : value :=
  match obj with
  | [] => JUndefined
  | (k, v) :: rest => if String.eqb k key then v else get rest key
  end.

End JS.
Import JS.

(** ** The flag catalogue *)

(** One entry of config/llama-flags.json.  The backend reads only
    [default]; an entry without one has [fd_default = JUndefined]. *)
Record FlagDefinition : Type := {
  fd_type : string;
  fd_default : value
}.

(** ** Argument construction *)

Section ArgumentBuilder.

(** The parsed catalogue, [flagDefinitions]. *)
Variable flagDefinitions : gmap string FlagDefinition.

(** [flagDefinitions[key]?.default] *)
Definition defaultValue (key : string) : value :=
  match flagDefinitions !! key with
  | Some flagDef => fd_default flagDef
  | None => JUndefined
  end.

(** The body of the [for (const [key, value] of Object.entries(flags))]
    loop: the tokens one entry pushes onto [args]. *)
Definition flag_tokens (entry : string * value) : list string :=
  let '(key, value) := entry in
  if strict_ne value (JString "") && strict_ne value JNull
     && strict_ne value JUndefined then
    if strict_ne value (defaultValue key) then
      if String.eqb (typeof value) "boolean" then
        if truthy value then ["--" +:+ key] else []
      else
        ["--" +:+ key; ToString value]
    else []
  else [].

(** The loop itself, started from [const args = []]. *)
Definition build_args (flags : list (string * value)) : list string :=
  fold_left (fun args entry => args ++ flag_tokens entry) flags [].

End ArgumentBuilder.

(** ** Supervisor state *)

(** The values [serverStatus] is assigned or compared with. *)
Inductive ServerStatus : Type := stopped | starting | running.

#[global] Instance ServerStatus_eq_dec : EqDecision ServerStatus.
Proof. solve_decision. Defined.

(** The [type] of a log entry. *)
Inductive LogType : Type := stdout | stderr | exit.

#[global] Instance LogType_eq_dec : EqDecision LogType.
Proof. solve_decision. Defined.

(** One element of [serverLogs]; [timestamp] is the [new Date()] read when
    the entry is pushed, in milliseconds. *)
Record LogEntry : Type := {
  type : LogType;
  message : string;
  timestamp : Z
}.

(** What [spawn] hands back: the child's [pid] and the command line it was
    created with. *)
Record ChildProcess : Type := {
  pid : Z;
  spawnfile : string;
  spawnargs : list string
}.

(** The three globals of the backend. *)
Record State : Type := {
  llamaServerProcess : option ChildProcess;
  serverStatus : ServerStatus;
  serverLogs : list LogEntry
}.

(** [let llamaServerProcess = null; let serverStatus = 'stopped';
     let serverLogs = [];] *)
Definition initial : State :=
  {| llamaServerProcess := None; serverStatus := stopped; serverLogs := [] |}.

Definition set_status (v : ServerStatus) (s : State) : State :=
  {| llamaServerProcess := llamaServerProcess s;
     serverStatus := v;
     serverLogs := serverLogs s |}.

Definition set_process (v : option ChildProcess) (s : State) : State :=
  {| llamaServerProcess := v;
     serverStatus := serverStatus s;
     serverLogs := serverLogs s |}.

(** [serverLogs.push(entry)] *)
Definition push_log (entry : LogEntry) (s : State) : State :=
  {| llamaServerProcess := llamaServerProcess s;
     serverStatus := serverStatus s;
     serverLogs := serverLogs s ++ [entry] |}.

(** ** Replies and collaborators *)

(** [res.status(code).json(body)]; [res.json(body)] alone replies 200. *)
Record Reply : Type := {
  statusCode : Z;
  body : value
}.

Definition error_body (text : string) : value :=
  JObject [("error", JString text)].

(** A call that either returns or throws an [Error] with a message. *)
Inductive completion (A : Type) : Type :=
| Returns (a : A)
| Throws (text : string).
Arguments Returns {A} a.
Arguments Throws {A} text.

(** What the world outside answers during one start request:
    [checkLlamaServer()] ([None] for [null]), the constant [MODELS_DIR],
    [fs.readdirSync(MODELS_DIR)] and [spawn(serverPath, args, ...)].
    [spawn] throws, or returns a child: [Returns (Some p)] a child whose
    process was created, with pid [p]; [Returns None] a child object
    without a process (the file cannot be run), whose failure arrives
    later as an ['error'] event. *)
Record StartEnv : Type := {
  checkLlamaServer : option string;
  MODELS_DIR : string;
  readdirSync : completion (list string);
  spawn : string -> list string -> completion (option Z)
}.

(** ** String helpers of the host language *)

(** [s.endsWith(suffix)] *)
Definition endsWith (suffix s : string) : bool :=
  String.prefix (String.rev suffix) (String.rev s).

(** The string of the bytes with the given codes. *)
Definition bytes (codes : list Z) : string :=
  String.string_of_list_ascii
    (map (fun code => Ascii.ascii_of_nat (Z.to_nat code)) codes).

(** The white space and line terminators that [trim] strips, in UTF-8: TAB,
    LF, VT, FF, CR and SP, then U+00A0, U+1680, U+2000 to U+200A, U+2028,
    U+2029, U+202F, U+205F, U+3000 and U+FEFF. *)
Definition white_space : list string :=
  map (fun code => bytes [code]) [9; 10; 11; 12; 13; 32]
  ++ [bytes [194; 160]; bytes [225; 154; 128]]
  ++ map (fun code => bytes [226; 128; code])
       [128; 129; 130; 131; 132; 133; 134; 135; 136; 137; 138; 168; 169; 175]
  ++ [bytes [226; 129; 159]; bytes [227; 128; 128]; bytes [239; 187; 191]].

Definition is_white (w : string) : bool :=
  existsb (String.eqb w) white_space.

(** The bytes [a], [b], ... read in the direction of the scan: as they
    stand, or last byte first when the scanned string is a reversed one. *)
Definition word (backwards : bool) (read : list Ascii.ascii) : string :=
  String.string_of_list_ascii (if backwards then rev read else read).

(** Strips the white space a string starts with, one character (of one,
    two or three bytes) at a time. *)
Fixpoint strip_spaces (backwards : bool) (s : string) : string :=
  match s with
  | EmptyString => EmptyString
  | String a rest =>
      if is_white (word backwards [a]) then strip_spaces backwards rest
      else
        match rest with
        | EmptyString => s
        | String b rest2 =>
            if is_white (word backwards [a; b])
            then strip_spaces backwards rest2
            else
              match rest2 with
              | EmptyString => s
              | String c rest3 =>
                  if is_white (word backwards [a; b; c])
                  then strip_spaces backwards rest3
                  else s
              end
        end
  end.

(** [s.trimStart()] *)
Definition trimStart (s : string) : string := strip_spaces false s.

(** [s.trimEnd()] *)
Definition trimEnd (s : string) : string :=
  String.rev (strip_spaces true (String.rev s)).

(** [s.trim()] *)
Definition trim (s : string) : string := trimEnd (trimStart s).

(** [l.slice(-n)]: the last [n] elements, all of them when there are fewer. *)
Definition slice_last {A : Type} (n : nat) (l : list A) : list A :=
  drop (length l - n) l.

(** ** Request handlers *)

Definition presetFlags : list string :=
  [ "embd-gemma-default";
    "fim-qwen-1.5b-default";
    "fim-qwen-3b-default";
    "fim-qwen-7b-default";
    "fim-qwen-7b-spec";
    "fim-qwen-14b-spec";
    "fim-qwen-30b-default";
    "gpt-oss-20b-default";
    "gpt-oss-120b-default";
    "vision-gemma-4b-default";
    "vision-gemma-12b-default" ].

(** [presetFlags.some(p => flags[p])] *)
Definition hasPreset (flags : list (string * value)) : bool :=
  existsb (fun p => truthy (get flags p)) presetFlags.

(** Whether the loop body throws at an entry: the entry gets as far as
    [String(value)], and that throws. *)
Definition push_throws (flagDefinitions : gmap string FlagDefinition)
    (entry : string * value) : bool :=
  let '(key, value) := entry in
  strict_ne value (JString "") && strict_ne value JNull
  && strict_ne value JUndefined
  && strict_ne value (defaultValue flagDefinitions key)
  && negb (String.eqb (typeof value) "boolean")
  && String_throws value.

(** One turn of the argument loop, on the arguments pushed so far. *)
Definition push_entry (flagDefinitions : gmap string FlagDefinition)
    (args : completion (list string)) (entry : string * value)
    : completion (list string) :=
  match args with
  | Throws text => Throws text
  | Returns pushed =>
      if push_throws flagDefinitions entry then Throws not_primitive
      else Returns (pushed ++ flag_tokens flagDefinitions entry)
  end.

(** The argument loop as the [try] block runs it: the arguments, unless a
    [String(value)] throws on the way. *)
Definition build_command (flagDefinitions : gmap string FlagDefinition)
    (flags : list (string * value)) : completion (list string) :=
  fold_left (push_entry flagDefinitions) flags (Returns []).

(** The result of one start request: the reply, the child process [spawn]
    created (if it was called and created one), the globals afterwards, and
    whether the backend ends right after the reply.  It does when [spawn]
    returned a child without a process: the handler registers no listener
    for the ['error'] event of the child, so the event is thrown in the
    same tick and nothing catches it. *)
Record StartResult : Type := {
  reply : Reply;
  spawned : option ChildProcess;
  after : State;
  backend_dies : bool
}.

(** The [catch (error)] block of the start handler. *)
Definition start_failed (text : string) (s : State) : StartResult :=
  {| reply := {| statusCode := 500; body := error_body text |};
     spawned := None;
     after := set_status stopped s;
     backend_dies := false |}.

Definition refuse (code : Z) (b : value) (s : State) : StartResult :=
  {| reply := {| statusCode := code; body := b |};
     spawned := None;
     after := s;
     backend_dies := false |}.

Definition starting_body : value :=
  JObject [("success", JBool true); ("message", JString "Server starting...")].

(** [app.post('/start-server', ...)] with [req.body = flags].  When [spawn]
    returns a child without a process, [llamaServerProcess] is left as it
    was: the object stored there has no pid, and the backend ends before
    any handler could read it. *)
Definition start_server (flagDefinitions : gmap string FlagDefinition)
    (env : StartEnv) (flags : list (string * value)) (s : State)
    : StartResult :=
  if decide (serverStatus s = running) then
    refuse 400 (error_body "Server is already running") s
  else
    match checkLlamaServer env with
    | None =>
        refuse 503 (error_body "llama-server is not installed or available. Please try again or check the server logs.") s
    | Some serverPath =>
        match readdirSync env with
        | Throws text => start_failed text s
        | Returns files =>
            let availableModels := List.filter (endsWith ".gguf") files in
            if Nat.eqb (length availableModels) 0 then
              refuse 400
                (JObject [("error", JString "No models found. Please add a .gguf model file to the models/ directory first.");
                          ("modelsDir", JString (MODELS_DIR env))]) s
            else if negb (truthy (get flags "model")) && negb (hasPreset flags) then
              refuse 400 (error_body "Please select a model or enable a preset") s
            else
              let s1 := set_status starting s in
              match build_command flagDefinitions flags with
              | Throws text => start_failed text s1
              | Returns args =>
                  match spawn env serverPath args with
                  | Throws text => start_failed text s1
                  | Returns (Some p) =>
                      let child :=
                        {| pid := p; spawnfile := serverPath;
                           spawnargs := args |} in
                      {| reply := {| statusCode := 200; body := starting_body |};
                         spawned := Some child;
                         after := set_process (Some child) s1;
                         backend_dies := false |}
                  | Returns None =>
                      {| reply := {| statusCode := 200; body := starting_body |};
                         spawned := None;
                         after := s1;
                         backend_dies := true |}
                  end
              end
        end
    end.

(** [app.post('/stop-server', ...)]; [kill] is what
    [process.kill(-llamaServerProcess.pid)] does. *)
Definition stop_server (kill : Z -> completion unit) (s : State)
    : Reply * State :=
  match llamaServerProcess s with
  | None => ({| statusCode := 400; body := error_body "Server is not running" |}, s)
  | Some child =>
      match kill (- pid child) with
      | Returns _ =>
          ({| statusCode := 200;
              body := JObject [("success", JBool true);
                               ("message", JString "Server stop signal sent")] |}, s)
      | Throws text => ({| statusCode := 500; body := error_body text |}, s)
      end
  end.

(** The body of the reply of [app.get('/server-status', ...)]. *)
Record StatusBody : Type := {
  status : ServerStatus;
  logs : list LogEntry
}.

Definition server_status (s : State) : StatusBody :=
  {| status := serverStatus s; logs := slice_last 100 (serverLogs s) |}.

(** [app.post('/clear-logs', ...)] *)
Definition clear_logs (s : State) : Reply * State :=
  ({| statusCode := 200; body := JObject [("success", JBool true)] |},
   {| llamaServerProcess := llamaServerProcess s;
      serverStatus := serverStatus s;
      serverLogs := [] |}).

(** ** Child-process callbacks *)

(** The ['data'] listener of a stream, pushing entries of type [kind]. *)
Definition on_data (kind : LogType) (data : string) (now : Z) (s : State)
    : State :=
  let text := trim data in
  if negb (String.eqb text "") then
    push_log {| type := kind; message := text; timestamp := now |} s
  else s.

(** [llamaServerProcess.stdout.on('data', ...)] *)
Definition on_stdout_data : string -> Z -> State -> State := on_data stdout.

(** [llamaServerProcess.stderr.on('data', ...)] *)
Definition on_stderr_data : string -> Z -> State -> State := on_data stderr.

(** [llamaServerProcess.on('close', (code) => ...)]; [code] is a number,
    or [null] when a signal ended the child. *)
Definition on_close (code : value) (now : Z) (s : State) : State :=
  let s1 := set_status stopped s in
  let s2 :=
    push_log {| type := exit;
                message := "Process exited with code " +:+ ToString code;
                timestamp := now |} s1 in
  set_process None s2.

(** ** The event loop *)

(** The globals together with the children that were spawned and have not
    yet emitted ['close'] (their pids, as the operating system holds them). *)
Record World : Type := {
  server : State;
  children : list Z
}.

Definition init_world : World := {| server := initial; children := [] |}.

(** What the event loop can run next: a request, or a callback of a child. *)
Inductive Event : Type :=
| StartRequest (env : StartEnv) (flags : list (string * value))
| StopRequest (kill : Z -> completion unit)
| StatusRequest
| ClearLogsRequest
| StdoutData (child : Z) (data : string) (now : Z)
| StderrData (child : Z) (data : string) (now : Z)
| Close (child : Z) (code : option Z) (now : Z).

(** The [code] argument of the ['close'] listener. *)
Definition code_value (code : option Z) : value :=
  match code with
  | Some n => JNum n
  | None => JNull
  end.

Fixpoint remove_child (p : Z) (l : list Z) : list Z :=
  match l with
  | [] => []
  | q :: rest => if Z.eqb p q then rest else q :: remove_child p rest
  end.

(** One turn of the event loop; [None] when the event cannot happen (a
    callback of a child that is not alive) or the backend does not survive
    it. *)
Definition step (flagDefinitions : gmap string FlagDefinition)
    (w : World) (e : Event) : option World :=
  match e with
  | StartRequest env flags =>
      let r := start_server flagDefinitions env flags (server w) in
      if backend_dies r then None
      else
        Some {| server := after r;
                children := match spawned r with
                            | Some child => pid child :: children w
                            | None => children w
                            end |}
  | StopRequest kill =>
      Some {| server := snd (stop_server kill (server w));
              children := children w |}
  | StatusRequest => Some w
  | ClearLogsRequest =>
      Some {| server := snd (clear_logs (server w)); children := children w |}
  | StdoutData p data now =>
      if bool_decide (p ∈ children w) then
        Some {| server := on_stdout_data data now (server w);
                children := children w |}
      else None
  | StderrData p data now =>
      if bool_decide (p ∈ children w) then
        Some {| server := on_stderr_data data now (server w);
                children := children w |}
      else None
  | Close p code now =>
      if bool_decide (p ∈ children w) then
        Some {| server := on_close (code_value code) now (server w);
                children := remove_child p (children w) |}
      else None
  end.

Fixpoint run (flagDefinitions : gmap string FlagDefinition)
    (w : World) (events : list Event) : option World :=
  match events with
  | [] => Some w
  | e :: rest =>
      match step flagDefinitions w e with
      | Some w' => run flagDefinitions w' rest
      | None => None
      end
  end.

Definition reachable (flagDefinitions : gmap string FlagDefinition)
    (w : World) : Prop :=
  ∃ events, run flagDefinitions init_world events = Some w.

(** ** Concrete catalogues and collaborators used in the scenarios *)

Definition threads_schema : gmap string FlagDefinition :=
  {[ "threads" := {| fd_type := "number"; fd_default := JNum 4 |} ]}.

Definition verbose_schema : gmap string FlagDefinition :=
  {[ "verbose" := {| fd_type := "boolean"; fd_default := JBool false |} ]}.

(** The binary is installed, one model file is present and [spawn] returns
    a child with pid [p]. *)
Definition env_ok (p : Z) : StartEnv :=
  {| checkLlamaServer := Some "bin/llama-server";
     MODELS_DIR := "models";
     readdirSync := Returns ["tiny.gguf"];
     spawn := fun _ _ => Returns (Some p) |}.

(** ** The models listing *)

(** [path.join(dir, name)] for a normalised directory and the name of one of
    its entries; [sep] is [path.sep]. *)
Definition path_join (sep dir name : string) : string :=
  dir +:+ sep +:+ name.

(** The [.map(filename => ...)] of the models endpoint: one object per file,
    with the size [fs.statSync] reports; the first [statSync] that throws
    ends the map. *)
Fixpoint model_entries (sep dir : string) (statSync : string -> completion Z)
    (names : list string) : completion (list value) :=
  match names with
  | [] => Returns []
  | filename :: rest =>
      match statSync (path_join sep dir filename) with
      | Throws text => Throws text
      | Returns size =>
          match model_entries sep dir statSync rest with
          | Throws text => Throws text
          | Returns more =>
              Returns (JObject [("name", JString filename);
                                ("path", JString (path_join sep "models" filename));
                                ("size", JNum size)] :: more)
          end
      end
  end.

(** [app.get('/models', ...)], with [dir = MODELS_DIR]. *)
Definition list_models (sep dir : string) (readdir : completion (list string))
    (statSync : string -> completion Z) : Reply :=
  match readdir with
  | Throws text => {| statusCode := 500; body := error_body text |}
  | Returns files =>
      match model_entries sep dir statSync
              (List.filter (endsWith ".gguf") files) with
      | Throws text => {| statusCode := 500; body := error_body text |}
      | Returns models => {| statusCode := 200; body := JArray models |}
      end
  end.

(** ** The page script (public/script.js) *)

Module Client.

(** The [disabled] property of the three buttons. *)
Record Buttons : Type := {
  startBtn : bool;
  stopBtn : bool;
  openChatBtn : bool
}.

(** The button states [updateStatus] sets from the [status] of a status
    reply. *)
Definition updateStatus (status : ServerStatus) : Buttons :=
  {| startBtn := bool_decide (status = running)
                 || bool_decide (status = starting);
     stopBtn := bool_decide (status = stopped);
     openChatBtn := negb (bool_decide (status = running)) |}.

Definition dquote : string := String (Ascii.ascii_of_nat 34) EmptyString.

(** The loop body of [updateCommandPreview]: the tokens one entry of the
    form values adds to the previewed command. *)
Definition preview_tokens (entry : string * value) : list string :=
  let '(key, value) := entry in
  if strict_ne value (JString "") && strict_ne value JNull
     && strict_ne value JUndefined then
    if String.eqb (typeof value) "boolean" then
      if truthy value then ["--" +:+ key] else []
    else
      ["--" +:+ key; dquote +:+ ToString value +:+ dquote]
  else [].

Definition preview_args (config : list (string * value)) : list string :=
  fold_left (fun args entry => args ++ preview_tokens entry) config [].

(** [[serverPath, ...args].join(' ')] with [serverPath = 'llama-server']. *)
Definition fullCommand (config : list (string * value)) : string :=
  String.concat " " ("llama-server" :: preview_args config).

End Client.

(** ** The installer (install.js) *)

Module Install.

(** The names [getPlatform] returns. *)
Inductive Platform : Type :=
| windows_x64 | windows_arm64 | macos_arm64 | macos_x64 | linux_x64.

Definition platform_name (p : Platform) : string :=
  match p with
  | windows_x64 => "windows-x64"
  | windows_arm64 => "windows-arm64"
  | macos_arm64 => "macos-arm64"
  | macos_x64 => "macos-x64"
  | linux_x64 => "linux-x64"
  end.

(** [getPlatform()], given [os.platform()] and [os.arch()]. *)
Definition getPlatform (platform arch : string) : completion Platform :=
  if String.eqb platform "win32" then
    Returns (if String.eqb arch "x64" then windows_x64 else windows_arm64)
  else if String.eqb platform "darwin" then
    Returns (if String.eqb arch "arm64" then macos_arm64 else macos_x64)
  else if String.eqb platform "linux" then
    Returns linux_x64
  else
    Throws ("Unsupported platform: " +:+ platform +:+ "-" +:+ arch).

(** One element of [release.assets]. *)
Record Asset : Type := {
  name : string;
  browser_download_url : string
}.

(** The two shapes of the asset name patterns: a literal, and
    [before.*after]. *)
Inductive Pattern : Type :=
| Literal (text : string)
| Around (before after : string).

(** The [patterns] table, by platform, in priority order; it has no entry
    for ['windows-arm64']. *)
Definition patterns (platform : Platform) : list Pattern :=
  match platform with
  | windows_x64 =>
      [Around "llama-" "-bin-win-cuda"; Literal "win-cuda";
       Around "llama-" "-bin-win-cpu"; Literal "win-cpu"]
  | macos_x64 => [Around "llama-" "-bin-macos-x64"; Literal "bin-macos-x64"]
  | macos_arm64 =>
      [Around "llama-" "-bin-macos-arm64"; Literal "bin-macos-arm64"]
  | linux_x64 => [Around "llama-" "-bin-ubuntu-x64"; Literal "bin-ubuntu-x64"]
  | windows_arm64 => []
  end.

(** Case folding of the [i] flag: the letters a-z go to A-Z, every other
    byte stays. *)
Definition fold_case (c : Ascii.ascii) : Ascii.ascii :=
  let n := Ascii.nat_of_ascii c in
  if (Nat.leb 97 n && Nat.leb n 122)%bool
  then Ascii.ascii_of_nat (n - 32) else c.

(** The literal matches at the very start of [s]. *)
Fixpoint starts_with_ci (literal s : string) : bool :=
  match literal, s with
  | EmptyString, _ => true
  | String _ _, EmptyString => false
  | String a literal', String b s' =>
      Ascii.eqb (fold_case a) (fold_case b) && starts_with_ci literal' s'
  end.

(** The literal matches somewhere in [s]. *)
Fixpoint find_ci (literal s : string) : bool :=
  starts_with_ci literal s
  || match s with
     | EmptyString => false
     | String _ s' => find_ci literal s'
     end.

(** The last two bytes of U+2028 ([last = 168]) and U+2029 ([last = 169]). *)
Definition separator_tail (last : nat) : string :=
  String (Ascii.ascii_of_nat 128) (String (Ascii.ascii_of_nat last) EmptyString).

(** The part of [s] that [.*] can run over: up to the first line
    terminator (LF, CR, U+2028 or U+2029 in UTF-8). *)
Fixpoint first_line (s : string) : string :=
  match s with
  | EmptyString => EmptyString
  | String c s' =>
      if Ascii.eqb c (Ascii.ascii_of_nat 10)
         || Ascii.eqb c (Ascii.ascii_of_nat 13)
      then EmptyString
      else if Ascii.eqb c (Ascii.ascii_of_nat 226)
              && (String.prefix (separator_tail 168) s'
                  || String.prefix (separator_tail 169) s')
      then EmptyString
      else String c (first_line s')
  end.

Fixpoint skip (n : nat) (s : string) : string :=
  match n, s with
  | O, _ => s
  | S _, EmptyString => EmptyString
  | S n', String _ s' => skip n' s'
  end.

(** [before.*after] matches somewhere in [s]. *)
Fixpoint find_around (before after s : string) : bool :=
  (starts_with_ci before s
   && find_ci after (first_line (skip (String.length before) s)))
  || match s with
     | EmptyString => false
     | String _ s' => find_around before after s'
     end.

(** [new RegExp(pattern, 'i').test(s)] *)
Definition test (pattern : Pattern) (s : string) : bool :=
  match pattern with
  | Literal text => find_ci text s
  | Around before after => find_around before after s
  end.

(** The callback of [assets.find]. *)
Definition wanted (pattern : Pattern) (a : Asset) : bool :=
  test pattern (name a)
  && (endsWith ".zip" (name a) || endsWith ".tar.gz" (name a)).

(** The [for (const pattern of searchPatterns)] loop. *)
Fixpoint first_wanted (assets : list Asset) (searchPatterns : list Pattern)
    : option Asset :=
  match searchPatterns with
  | [] => None
  | pattern :: rest =>
      match List.find (wanted pattern) assets with
      | Some asset => Some asset
      | None => first_wanted assets rest
      end
  end.

(** [findBinaryAsset(release, platform)]; [release_assets] is
    [release.assets], [None] when the release has none. *)
Definition findBinaryAsset (release_assets : option (list Asset))
    (platform : Platform) : option Asset :=
  let assets := default [] release_assets in
  first_wanted assets (patterns platform).

(** The candidates [checkLlamaServer] probes, given the llama.cpp
    directory and whether [os.platform()] is ['win32']. *)
Definition possiblePaths (sep LLAMA_CPP_DIR : string) (win32 : bool)
    : list string :=
  let BUILD_DIR := path_join sep LLAMA_CPP_DIR "build" in
  let BIN_DIR := path_join sep BUILD_DIR "bin" in
  let exe := "llama-server" +:+ (if win32 then ".exe" else "") in
  [path_join sep BIN_DIR exe; path_join sep BUILD_DIR exe; "llama-server"].

(** [checkLlamaServer()]: the first candidate that exists; the answer of
    the [exec] probe arrives after the function has returned [null]. *)
Definition checkLlamaServer (sep LLAMA_CPP_DIR : string) (win32 : bool)
    (existsSync : string -> bool) : option string :=
  List.find existsSync (possiblePaths sep LLAMA_CPP_DIR win32).

End Install.

(** ** Notions used to state the properties *)

(** The equality of two flag values as the specification words it: numbers,
    booleans and strings are equal to themselves, and every way of giving no
    value (empty string, [null], [undefined]) equals an absent default. *)
Definition absent (v : value) : Prop :=
  v = JString "" ∨ v = JNull ∨ v = JUndefined.

Inductive type_aware_equal : value → value → Prop :=
| equal_numbers (n : Z) : type_aware_equal (JNum n) (JNum n)
| equal_other_numbers (r : string) : type_aware_equal (JFloat r) (JFloat r)
| equal_booleans (b : bool) : type_aware_equal (JBool b) (JBool b)
| equal_strings (s : string) : type_aware_equal (JString s) (JString s)
| equal_absent (v d : value) : absent v → absent d → type_aware_equal v d.

(** The tokens of an entry that is compared with no default at all. *)
Definition undefaulted_tokens (key : string) (v : value) : list string :=
  match v with
  | JUndefined | JNull | JString "" => []
  | JBool true => ["--" +:+ key]
  | JBool false => []
  | _ => ["--" +:+ key; ToString v]
  end.

(** The request used in the lifecycle scenarios: a model is selected. *)
Definition model_selected : list (string * value) :=
  [("model", JString "tiny.gguf")].

(** The globals after one accepted start request from the initial state,
    with child 101 running. *)
Definition started_once : State :=
  after (start_server threads_schema (env_ok 101) model_selected initial).

(** ** Notions and scenarios of the further properties *)

(** [fs.readdirSync] throws during a restart attempt. *)
Definition env_unreadable : StartEnv :=
  {| checkLlamaServer := Some "bin/llama-server";
     MODELS_DIR := "models";
     readdirSync := Throws "ENOENT: no such file or directory";
     spawn := fun _ _ => Returns (Some 102) |}.

(** The link between the globals and the children that are alive. *)
Definition tracking_ok (w : World) : Prop :=
  (∀ c, llamaServerProcess (server w) = Some c → pid c ∈ children w)
  ∧ (serverStatus (server w) = starting →
     is_Some (llamaServerProcess (server w))).

(** The world after one accepted start: child 101 is tracked and alive. *)
Definition world_started_once : World :=
  {| server := started_once; children := [101] |}.

Definition chars (s : string) : list Ascii.ascii :=
  String.list_ascii_of_string s.

(** Nothing but white space: a sequence of characters of [white_space]. *)
Inductive blank : string → Prop :=
| blank_empty : blank ""
| blank_more (w s : string) :
    w ∈ white_space → blank s → blank (w +:+ s).

(** No one-byte white space at either end. *)
Definition trimmed (s : string) : Prop :=
  (∀ c, head (chars s) = Some c → Ascii.is_space c = false)
  ∧ (∀ c, last (chars s) = Some c → Ascii.is_space c = false).



Definition is_close (e : Event) : bool :=
  match e with
  | Close _ _ _ => true
  | _ => false
  end.

(** The number of ['close'] events in a run. *)
Definition close_events (events : list Event) : nat :=
  length (List.filter is_close events).

(** The number of exit entries in a buffer. *)
Definition exit_entries (l : list LogEntry) : nat :=
  length (filter (λ entry, type entry = exit) l).

(** Output, a stop request, the child's exit and a status poll. *)
Definition quiet_run : list Event :=
  [StdoutData 101 "loading model" 8;
   StopRequest (fun _ => Returns tt);
   Close 101 None 9;
   StatusRequest].

(** The previewed form of the tokens of one entry: the value in double
    quotes. *)
Definition quoted (tokens : list string) : list string :=
  match tokens with
  | [flag; v] => [flag; Client.dquote +:+ v +:+ Client.dquote]
  | _ => tokens
  end.

(** The object the listing holds for one file. *)
Definition model_entry (sep : string) (size : string → Z) (filename : string)
    : value :=
  JObject [("name", JString filename);
           ("path", JString (path_join sep "models" filename));
           ("size", JNum (size filename))].

(** The 400 reply of the start handler when the directory has no model. *)
Definition no_models_reply (dir : string) : Reply :=
  {| statusCode := 400;
     body := JObject [("error", JString "No models found. Please add a .gguf model file to the models/ directory first.");
                      ("modelsDir", JString dir)] |}.

(** The archive test of the [assets.find] callback. *)
Definition archive (a : Install.Asset) : bool :=
  endsWith ".zip" (Install.name a) || endsWith ".tar.gz" (Install.name a).

(** The literal patterns of a platform: the tags an asset name must
    contain. *)
Definition platform_tags (platform : Install.Platform) : list string :=
  match platform with
  | Install.windows_x64 => ["win-cuda"; "win-cpu"]
  | Install.macos_x64 => ["bin-macos-x64"]
  | Install.macos_arm64 => ["bin-macos-arm64"]
  | Install.linux_x64 => ["bin-ubuntu-x64"]
  | Install.windows_arm64 => []
  end.

(** Two assets of a release, the source archive listed first. *)
Definition ubuntu_release : list Install.Asset :=
  [ {| Install.name := "llama-b4500-src.tar.gz";
       Install.browser_download_url := "https://example.org/src" |};
    {| Install.name := "llama-b4500-bin-ubuntu-x64.zip";
       Install.browser_download_url := "https://example.org/ubuntu" |} ].

(** A release that lists the CPU build before the CUDA build. *)
Definition windows_release : list Install.Asset :=
  [ {| Install.name := "llama-b4500-bin-win-cpu-x64.zip";
       Install.browser_download_url := "https://example.org/cpu" |};
    {| Install.name := "cudart-llama-bin-win-cuda-12.4-x64.zip";
       Install.browser_download_url := "https://example.org/cudart" |};
    {| Install.name := "llama-b4500-bin-win-cuda-12.4-x64.zip";
       Install.browser_download_url := "https://example.org/cuda" |} ].

(** * Properties *)

(** ** The argument builder *)

Section BuilderFacts.

Variable flagDefinitions : gmap string FlagDefinition.

Lemma build_loop_acc (flags : list (string * value)) (acc : list string) :
  fold_left (fun args entry => args ++ flag_tokens flagDefinitions entry)
    flags acc
  = acc ++ build_args flagDefinitions flags.
Proof.
  unfold build_args. revert acc.
  induction flags as [|entry flags IH]; intros acc; simpl.
  - by rewrite app_nil_r.
  - rewrite IH. rewrite (IH (flag_tokens flagDefinitions entry)).
    by rewrite app_assoc.
Qed.

Lemma build_args_cons (entry : string * value) (flags : list (string * value)) :
  build_args flagDefinitions (entry :: flags)
  = flag_tokens flagDefinitions entry ++ build_args flagDefinitions flags.
Proof. unfold build_args at 1. simpl. apply build_loop_acc. Qed.

Lemma build_args_app (before after : list (string * value)) :
  build_args flagDefinitions (before ++ after)
  = build_args flagDefinitions before ++ build_args flagDefinitions after.
Proof.
  induction before as [|entry before IH]; [done|].
  rewrite <- app_comm_cons, !build_args_cons, IH. by rewrite app_assoc.
Qed.

(** The tokens of a list are those of its entries, in order. *)
Lemma build_args_entry (before after : list (string * value))
    (entry : string * value) :
  build_args flagDefinitions (before ++ entry :: after)
  = build_args flagDefinitions before
    ++ flag_tokens flagDefinitions entry
    ++ build_args flagDefinitions after.
Proof. by rewrite build_args_app, build_args_cons. Qed.

End BuilderFacts.

Lemma push_loop_thrown (fd : gmap string FlagDefinition)
    (flags : list (string * value)) (text : string) :
  fold_left (push_entry fd) flags (Throws text) = Throws text.
Proof. by induction flags. Qed.

(** The loop of the [try] block throws when some entry does, and otherwise
    returns the tokens of the entries. *)
Lemma build_command_spec (fd : gmap string FlagDefinition)
    (flags : list (string * value)) :
  build_command fd flags
  = if existsb (push_throws fd) flags then Throws not_primitive
    else Returns (build_args fd flags).
Proof.
  unfold build_command.
  assert (∀ acc, fold_left (push_entry fd) flags (Returns acc)
                 = if existsb (push_throws fd) flags then Throws not_primitive
                   else Returns (acc ++ build_args fd flags)) as Hloop.
  { induction flags as [|entry flags IH]; intros acc; simpl.
    - by rewrite app_nil_r.
    - destruct (push_throws fd entry); simpl.
      + apply push_loop_thrown.
      + rewrite IH, build_args_cons. destruct (existsb _ _); [done|].
        by rewrite app_assoc. }
  apply (Hloop []).
Qed.

(** An entry makes the loop throw exactly when [String] throws on its
    value: such a value is an array or an object, which passes every test
    on the way. *)
Lemma push_throws_String (fd : gmap string FlagDefinition) (key : string)
    (v : value) :
  push_throws fd (key, v) = String_throws v.
Proof.
  unfold push_throws.
  destruct (String_throws v) eqn:Hthrows; [|apply andb_false_r].
  destruct v; try discriminate; reflexivity.
Qed.

Lemma build_command_entry (fd : gmap string FlagDefinition)
    (before after : list (string * value)) (entry : string * value) :
  build_command fd (before ++ entry :: after)
  = if push_throws fd entry || existsb (push_throws fd) (before ++ after)
    then Throws not_primitive
    else Returns (build_args fd before ++ flag_tokens fd entry
                  ++ build_args fd after).
Proof.
  rewrite build_command_spec, build_args_entry, !existsb_app. simpl.
  by destruct (existsb (push_throws fd) before), (push_throws fd entry),
    (existsb (push_throws fd) after).
Qed.

Lemma strict_eq_bool_l (b : bool) (d : value) :
  strict_eq (JBool b) d = true ↔ d = JBool b.
Proof.
  destruct d as [| |b'| | | | |]; simpl; try (split; [discriminate|congruence]).
  destruct b, b'; simpl; split; congruence.
Qed.

Lemma absent_no_tokens (fd : gmap string FlagDefinition) (key : string)
    (v : value) :
  absent v → flag_tokens fd (key, v) = [].
Proof. by intros [-> | [-> | ->]]. Qed.

Lemma type_aware_equal_strict (v d : value) :
  type_aware_equal v d → absent v ∨ strict_eq v d = true.
Proof.
  intros [n | r | b | s | v' d' Hv Hd]; [right; simpl ..|by left].
  - apply Z.eqb_refl.
  - apply String.eqb_refl.
  - by destruct b.
  - apply String.eqb_refl.
Qed.

Lemma type_aware_equal_no_tokens (fd : gmap string FlagDefinition)
    (key : string) (v : value) :
  type_aware_equal v (defaultValue fd key) → flag_tokens fd (key, v) = [].
Proof.
  intros [Hv | Heq]%type_aware_equal_strict.
  - by apply absent_no_tokens.
  - unfold flag_tokens, strict_ne at 4. rewrite Heq. simpl.
    by destruct (_ && _).
Qed.

(** C4. An entry whose value equals the schema default of its flag (numbers,
    booleans and strings by type and value, an empty or missing value
    against a missing default) pushes no token, so the argument list of a
    configuration is that of the configuration without the entry.  With the
    catalogue [{"threads": {type: "number", default: 4}}], the configuration
    [{"threads": 4}] builds [[]] and [{"threads": 8}] builds
    [["--threads", "8"]]. *)
Theorem default_valued_entry_is_omitted :
  (∀ (fd : gmap string FlagDefinition) (key : string) (v : value)
     (before after : list (string * value)),
     type_aware_equal v (defaultValue fd key) →
     flag_tokens fd (key, v) = []
     ∧ build_args fd (before ++ (key, v) :: after)
       = build_args fd before ++ build_args fd after)
  ∧ build_args threads_schema [("threads", JNum 4)] = []
  ∧ build_args threads_schema [("threads", JNum 8)] = ["--threads"; "8"].
Proof.
  split; [|split; reflexivity].
  intros fd key v before after Heq.
  pose proof (type_aware_equal_no_tokens fd key v Heq) as Hnone.
  split; [exact Hnone|].
  by rewrite build_args_entry, Hnone.
Qed.

Lemma default_valued_entry_is_omitted_witness :
  type_aware_equal (JNum 4) (defaultValue threads_schema "threads")
  ∧ flag_tokens threads_schema ("threads", JNum 4) = []
  ∧ build_args threads_schema
      ([("model", JString "tiny.gguf")] ++ ("threads", JNum 4) :: [("port", JNum 8080)])
    = build_args threads_schema [("model", JString "tiny.gguf")]
      ++ build_args threads_schema [("port", JNum 8080)].
Proof.
  assert (type_aware_equal (JNum 4) (defaultValue threads_schema "threads"))
    as Heq by (vm_compute; constructor).
  split; [exact Heq|].
  exact (proj1 default_valued_entry_is_omitted threads_schema "threads" (JNum 4)
           [("model", JString "tiny.gguf")] [("port", JNum 8080)] Heq).
Defined.

Lemma boolean_tokens (fd : gmap string FlagDefinition) (key : string)
    (b : bool) :
  defaultValue fd key ≠ JBool b →
  flag_tokens fd (key, JBool b) = if b then ["--" +:+ key] else [].
Proof.
  intros Hne. unfold flag_tokens, strict_ne.
  destruct (strict_eq (JBool b) (defaultValue fd key)) eqn:Hd.
  - apply strict_eq_bool_l in Hd. congruence.
  - by destruct b.
Qed.

(** C8. A boolean flag whose configured value differs from its schema
    default contributes, at its place in the argument list, the single
    token [--key] and no value token when the value is [true], and nothing
    when the value is [false].  With the catalogue
    [{"verbose": {type: "boolean", default: false}}], [{"verbose": true}]
    builds [["--verbose"]] and [{"verbose": false}] builds [[]]. *)
Theorem boolean_flag_presence_token :
  (∀ (fd : gmap string FlagDefinition) (key : string)
     (before after : list (string * value)),
     defaultValue fd key ≠ JBool true →
     build_args fd (before ++ (key, JBool true) :: after)
     = build_args fd before ++ ["--" +:+ key] ++ build_args fd after)
  ∧ (∀ (fd : gmap string FlagDefinition) (key : string)
       (before after : list (string * value)),
       defaultValue fd key ≠ JBool false →
       build_args fd (before ++ (key, JBool false) :: after)
       = build_args fd before ++ build_args fd after)
  ∧ build_args verbose_schema [("verbose", JBool true)] = ["--verbose"]
  ∧ build_args verbose_schema [("verbose", JBool false)] = [].
Proof.
  split; [|split; [|split; reflexivity]].
  - intros fd key before after Hne.
    by rewrite build_args_entry, (boolean_tokens fd key true Hne).
  - intros fd key before after Hne.
    by rewrite build_args_entry, (boolean_tokens fd key false Hne).
Qed.

Lemma boolean_flag_presence_token_witness :
  defaultValue verbose_schema "verbose" ≠ JBool true
  ∧ build_args verbose_schema
      ([("threads", JNum 8)] ++ ("verbose", JBool true) :: [("port", JNum 8080)])
    = build_args verbose_schema [("threads", JNum 8)]
      ++ ["--" +:+ "verbose"]
      ++ build_args verbose_schema [("port", JNum 8080)].
Proof.
  assert (defaultValue verbose_schema "verbose" ≠ JBool true)
    as Hne by (vm_compute; discriminate).
  split; [exact Hne|].
  exact (proj1 boolean_flag_presence_token verbose_schema "verbose"
           [("threads", JNum 8)] [("port", JNum 8080)] Hne).
Defined.

(** C9, as the claim states it, fails: with an empty catalogue the entry
    ["foo": "bar"], whose key has no definition, pushes two tokens. *)
Lemma unlisted_key_pushes_tokens :
  (∅ : gmap string FlagDefinition) !! "foo" = None
  ∧ flag_tokens ∅ ("foo", JString "bar") = ["--foo"; "bar"]
  ∧ build_args ∅ [("model", JString "tiny.gguf"); ("foo", JString "bar")]
    = ["--model"; "tiny.gguf"; "--foo"; "bar"].
Proof. repeat split. Qed.

(** C9, amended. An entry whose key has no definition in the catalogue is
    compared with an absent default: it pushes [--key] when its value is
    [true], nothing when its value is [false], the empty string, [null] or
    [undefined], and [--key] followed by [String(value)] otherwise, unless
    [String(value)] throws (an object with a "toString" property of its
    own, or an array holding one): the loop then throws and no argument
    list is built. *)
Theorem unlisted_key_is_passed_through
    (fd : gmap string FlagDefinition) (key : string) (v : value)
    (before after : list (string * value)) :
  fd !! key = None →
  (String_throws v = true →
   build_command fd (before ++ (key, v) :: after) = Throws not_primitive)
  ∧ (String_throws v = false → well_formed v = true →
     flag_tokens fd (key, v) = undefaulted_tokens key v
     ∧ build_args fd (before ++ (key, v) :: after)
       = build_args fd before ++ undefaulted_tokens key v
         ++ build_args fd after
     ∧ (existsb (push_throws fd) (before ++ after) = false →
        build_command fd (before ++ (key, v) :: after)
        = Returns (build_args fd before ++ undefaulted_tokens key v
                   ++ build_args fd after))).
Proof.
  intros Hnone.
  assert (flag_tokens fd (key, v) = undefaulted_tokens key v) as Htok.
  { unfold flag_tokens, defaultValue. rewrite Hnone.
    destruct v as [| |[]|n|r|[|c s]|items|fields]; reflexivity. }
  rewrite build_command_entry, push_throws_String. split.
  - by intros ->.
  - intros -> _. split; [exact Htok|]. split.
    + by rewrite build_args_entry, Htok.
    + intros ->. by rewrite Htok.
Qed.

Lemma unlisted_key_is_passed_through_witness :
  threads_schema !! "foo" = None
  ∧ (String_throws (JString "bar") = true →
     build_command threads_schema
       ([("threads", JNum 8)] ++ ("foo", JString "bar") :: [])
     = Throws not_primitive)
  ∧ (String_throws (JString "bar") = false →
     well_formed (JString "bar") = true →
     flag_tokens threads_schema ("foo", JString "bar")
     = undefaulted_tokens "foo" (JString "bar")
     ∧ build_args threads_schema
         ([("threads", JNum 8)] ++ ("foo", JString "bar") :: [])
       = build_args threads_schema [("threads", JNum 8)]
         ++ undefaulted_tokens "foo" (JString "bar")
         ++ build_args threads_schema []
     ∧ (existsb (push_throws threads_schema) ([("threads", JNum 8)] ++ [])
        = false →
        build_command threads_schema
          ([("threads", JNum 8)] ++ ("foo", JString "bar") :: [])
        = Returns (build_args threads_schema [("threads", JNum 8)]
                   ++ undefaulted_tokens "foo" (JString "bar")
                   ++ build_args threads_schema []))).
Proof.
  assert (threads_schema !! "foo" = None) as Hnone by reflexivity.
  split; [exact Hnone|].
  exact (unlisted_key_is_passed_through threads_schema "foo" (JString "bar")
           [("threads", JNum 8)] [] Hnone).
Defined.

(** C10. An entry whose value is the empty string, [null] or [undefined]
    pushes no token, whatever the catalogue says about its flag, so it never
    puts a value on the command line in place of a non-empty default. *)
Theorem empty_value_is_never_emitted
    (fd : gmap string FlagDefinition) (key : string)
    (before after : list (string * value)) :
  (flag_tokens fd (key, JString "") = []
   ∧ flag_tokens fd (key, JNull) = []
   ∧ flag_tokens fd (key, JUndefined) = [])
  ∧ build_args fd (before ++ (key, JString "") :: after)
    = build_args fd before ++ build_args fd after
  ∧ build_args fd (before ++ (key, JNull) :: after)
    = build_args fd before ++ build_args fd after
  ∧ build_args fd (before ++ (key, JUndefined) :: after)
    = build_args fd before ++ build_args fd after.
Proof.
  split; [done|].
  rewrite !build_args_entry. done.
Qed.

(** ** The start handler *)

(** A request that passes every check of the handler is accepted, and the
    child is created with the built arguments. *)
Lemma start_accepted (fd : gmap string FlagDefinition) (env : StartEnv)
    (flags : list (string * value)) (s : State) (path : string)
    (files : list string) (p : Z) :
  serverStatus s ≠ running →
  checkLlamaServer env = Some path →
  readdirSync env = Returns files →
  List.filter (endsWith ".gguf") files ≠ [] →
  truthy (get flags "model") = true ∨ hasPreset flags = true →
  existsb (push_throws fd) flags = false →
  spawn env path (build_args fd flags) = Returns (Some p) →
  start_server fd env flags s
  = let child := {| pid := p; spawnfile := path;
                    spawnargs := build_args fd flags |} in
    {| reply := {| statusCode := 200; body := starting_body |};
       spawned := Some child;
       after := set_process (Some child) (set_status starting s);
       backend_dies := false |}.
Proof.
  intros Hrun Hpath Hdir Hmodels Hsel Hbuild Hspawn. unfold start_server.
  rewrite decide_False by done. rewrite Hpath, Hdir.
  destruct (List.filter (endsWith ".gguf") files) as [|f fs] eqn:Hf; [done|].
  simpl length. cbn [Nat.eqb].
  assert (negb (truthy (get flags "model")) && negb (hasPreset flags) = false)
    as -> by (destruct Hsel as [-> | ->]; [done|by rewrite andb_false_r]).
  by rewrite build_command_spec, Hbuild, Hspawn.
Qed.

(** A request that passes the checks before the argument loop is never
    answered 400; if an entry makes the loop throw, it is answered 500 with
    the message of the [TypeError] and [spawn] is not called. *)
Lemma start_past_checks (fd : gmap string FlagDefinition) (env : StartEnv)
    (flags : list (string * value)) (s : State) (path : string)
    (files : list string) :
  serverStatus s ≠ running →
  checkLlamaServer env = Some path →
  readdirSync env = Returns files →
  List.filter (endsWith ".gguf") files ≠ [] →
  truthy (get flags "model") = true ∨ hasPreset flags = true →
  statusCode (reply (start_server fd env flags s)) ≠ 400
  ∧ (existsb (push_throws fd) flags = true →
     start_server fd env flags s
     = start_failed not_primitive (set_status starting s)).
Proof.
  intros Hrun Hpath Hdir Hmodels Hsel. unfold start_server.
  rewrite decide_False by done. rewrite Hpath, Hdir.
  destruct (List.filter (endsWith ".gguf") files) as [|f fs] eqn:Hf; [done|].
  simpl length. cbn [Nat.eqb].
  assert (negb (truthy (get flags "model")) && negb (hasPreset flags) = false)
    as -> by (destruct Hsel as [-> | ->]; [done|by rewrite andb_false_r]).
  rewrite build_command_spec.
  destruct (existsb (push_throws fd) flags); [by split|].
  split; [|done].
  by destruct (spawn env path (build_args fd flags)) as [[p|]|text].
Qed.

(** The tokens of an entry that is not empty and differs from its default,
    whatever the type the catalogue declares for its flag. *)
Lemma differing_value_tokens (fd : gmap string FlagDefinition) (key : string)
    (v : value) :
  ¬ absent v → strict_eq v (defaultValue fd key) = false →
  flag_tokens fd (key, v)
  = match v with
    | JBool true => ["--" +:+ key]
    | JBool false => []
    | _ => ["--" +:+ key; ToString v]
    end.
Proof.
  intros Hv Hne. unfold flag_tokens, strict_ne at 4. rewrite Hne.
  destruct v as [| |[]|n|r|[|c t]|items|fields]; try reflexivity;
    exfalso; apply Hv; unfold absent; auto.
Qed.

(** C5, as the claim states it, fails: the catalogue declares [threads] a
    number, the request gives it the string ["abc"], and the start is
    accepted with that string on the command line. *)
Lemma mistyped_value_is_accepted :
  let flags := [("model", JString "tiny.gguf"); ("threads", JString "abc")] in
  let r := start_server threads_schema (env_ok 101) flags initial in
  fd_type <$> threads_schema !! "threads" = Some "number"
  ∧ typeof (get flags "threads") = "string"
  ∧ statusCode (reply r) = 200
  ∧ spawnargs <$> spawned r
    = Some ["--model"; "tiny.gguf"; "--threads"; "abc"].
Proof. repeat split. Qed.

(** C5, amended. The argument builder checks no types, so a value whose
    type disagrees with its schema entry is never answered with a
    validation error.  Whatever type the catalogue declares, a value that is
    not empty and not strictly equal to the default is pushed as a bare
    [--key] when it is [true], as nothing when it is [false], and otherwise
    as [--key] followed by [String(value)].  The build fails only when
    [String(value)] itself throws (an object with a "toString" property of
    its own, or an array holding one), and the reply is then 500 with the
    message of the [TypeError].  So a start request that names a model or
    enables a preset, with the status not ['running'], the binary found and
    a model file present, is never answered 400: it is answered 500 when
    the loop throws, and 200, with the child created on the built
    arguments, when it does not and [spawn] returns a child process. *)
Theorem mistyped_value_is_passed_through :
  (∀ (fd : gmap string FlagDefinition) (key : string) (v : value),
     ¬ absent v → strict_eq v (defaultValue fd key) = false →
     String_throws v = false → well_formed v = true →
     push_throws fd (key, v) = false
     ∧ flag_tokens fd (key, v)
       = match v with
         | JBool true => ["--" +:+ key]
         | JBool false => []
         | _ => ["--" +:+ key; ToString v]
         end)
  ∧ (∀ (fd : gmap string FlagDefinition) (env : StartEnv)
       (flags : list (string * value)) (s : State) (path : string)
       (files : list string),
       serverStatus s ≠ running →
       checkLlamaServer env = Some path →
       readdirSync env = Returns files →
       List.filter (endsWith ".gguf") files ≠ [] →
       truthy (get flags "model") = true ∨ hasPreset flags = true →
       let r := start_server fd env flags s in
       statusCode (reply r) ≠ 400
       ∧ (existsb (push_throws fd) flags = true →
          reply r = {| statusCode := 500; body := error_body not_primitive |}
          ∧ spawned r = None)
       ∧ (existsb (push_throws fd) flags = false →
          ∀ p, spawn env path (build_args fd flags) = Returns (Some p) →
               statusCode (reply r) = 200
               ∧ spawned r = Some {| pid := p; spawnfile := path;
                                     spawnargs := build_args fd flags |})).
Proof.
  split.
  - intros fd key v Hv Hne Hthrows _. split.
    + unfold push_throws. rewrite Hthrows. apply andb_false_r.
    + by apply differing_value_tokens.
  - intros fd env flags s path files Hrun Hpath Hdir Hmodels Hsel. simpl.
    destruct (start_past_checks fd env flags s path files) as [Hcode Hthrown];
      try done.
    split; [exact Hcode|]. split.
    + intros Hthrows. by rewrite (Hthrown Hthrows).
    + intros Hbuild p Hspawn.
      by rewrite (start_accepted fd env flags s path files p).
Qed.

Lemma mistyped_value_is_passed_through_witness :
  let flags := [("model", JString "tiny.gguf"); ("threads", JString "abc")] in
  let r := start_server threads_schema (env_ok 101) flags initial in
  (¬ absent (JString "abc")
   ∧ strict_eq (JString "abc") (defaultValue threads_schema "threads") = false
   ∧ String_throws (JString "abc") = false
   ∧ well_formed (JString "abc") = true)
  ∧ (push_throws threads_schema ("threads", JString "abc") = false
     ∧ flag_tokens threads_schema ("threads", JString "abc")
       = ["--" +:+ "threads"; ToString (JString "abc")])
  ∧ statusCode (reply r) ≠ 400
  ∧ (existsb (push_throws threads_schema) flags = true →
     reply r = {| statusCode := 500; body := error_body not_primitive |}
     ∧ spawned r = None)
  ∧ (existsb (push_throws threads_schema) flags = false →
     ∀ p, spawn (env_ok 101) "bin/llama-server"
            (build_args threads_schema flags) = Returns (Some p) →
          statusCode (reply r) = 200
          ∧ spawned r = Some {| pid := p; spawnfile := "bin/llama-server";
                                spawnargs := build_args threads_schema flags |}).
Proof.
  assert (¬ absent (JString "abc")) as Hv
    by (intros [?|[?|?]]; discriminate).
  split; [by repeat split|]. split.
  - exact (proj1 mistyped_value_is_passed_through threads_schema
             "threads" (JString "abc") Hv eq_refl eq_refl eq_refl).
  - apply (proj2 mistyped_value_is_passed_through threads_schema (env_ok 101)
             [("model", JString "tiny.gguf"); ("threads", JString "abc")]
             initial "bin/llama-server" ["tiny.gguf"]).
    + discriminate.
    + reflexivity.
    + reflexivity.
    + discriminate.
    + left. reflexivity.
Defined.

(** C6. A start request whose body has no (truthy) [model] and no enabled
    preset never creates a child and leaves a stopped supervisor exactly as
    it was; when the binary is found and the models directory can be read
    the reply has status 400 and the globals are untouched, and when a
    model file exists and the status is not ['running'] its body is the
    error "Please select a model or enable a preset". *)
Theorem start_without_model_or_preset
    (fd : gmap string FlagDefinition) (env : StartEnv)
    (flags : list (string * value)) (s : State) :
  truthy (get flags "model") = false →
  hasPreset flags = false →
  let r := start_server fd env flags s in
  spawned r = None
  ∧ (serverStatus s = stopped → after r = s)
  ∧ (∀ (path : string) (files : list string),
       checkLlamaServer env = Some path →
       readdirSync env = Returns files →
       statusCode (reply r) = 400
       ∧ after r = s
       ∧ (serverStatus s ≠ running →
          List.filter (endsWith ".gguf") files ≠ [] →
          body (reply r)
          = error_body "Please select a model or enable a preset")).
Proof.
  intros Hmodel Hpreset. simpl. unfold start_server.
  rewrite Hmodel, Hpreset. simpl.
  destruct (decide (serverStatus s = running)) as [Hrun|Hrun].
  { split; [done|]. split; [done|]. intros path files _ _. by simpl. }
  destruct (checkLlamaServer env) as [serverPath|]; [|done].
  destruct (readdirSync env) as [files|text].
  - destruct (List.filter (endsWith ".gguf") files) as [|f fs] eqn:Hf; simpl.
    + split; [done|]. split; [done|].
      intros path files' _ [= <-]. rewrite Hf. by simpl.
    + split; [done|]. split; [done|].
      intros path files' _ [= <-]. by simpl.
  - split; [done|]. split; [|done].
    intros Hstopped. destruct s as [proc st lg]. simpl in *. by subst.
Qed.

Lemma start_without_model_or_preset_witness :
  let flags := [("threads", JNum 8)] in
  let r := start_server threads_schema (env_ok 101) flags initial in
  (truthy (get flags "model") = false ∧ hasPreset flags = false)
  ∧ spawned r = None
  ∧ (serverStatus initial = stopped → after r = initial)
  ∧ (∀ (path : string) (files : list string),
       checkLlamaServer (env_ok 101) = Some path →
       readdirSync (env_ok 101) = Returns files →
       statusCode (reply r) = 400
       ∧ after r = initial
       ∧ (serverStatus initial ≠ running →
          List.filter (endsWith ".gguf") files ≠ [] →
          body (reply r)
          = error_body "Please select a model or enable a preset")).
Proof.
  split; [by split|].
  exact (start_without_model_or_preset threads_schema (env_ok 101)
           [("threads", JNum 8)] initial eq_refl eq_refl).
Defined.

(** ** Lifecycle *)

Lemma start_server_status (fd : gmap string FlagDefinition) (env : StartEnv)
    (flags : list (string * value)) (s : State) :
  serverStatus s ≠ running →
  serverStatus (after (start_server fd env flags s)) ≠ running.
Proof.
  intros Hrun. unfold start_server. rewrite decide_False by done.
  destruct (checkLlamaServer env); [|done].
  destruct (readdirSync env); [|done].
  destruct (Nat.eqb _ _); [done|].
  destruct (_ && _); [done|].
  destruct (build_command fd flags) as [args|text]; [|done].
  by destruct (spawn env _ args) as [[p|]|text].
Qed.

(** A start request the backend survives. *)
Lemma step_start (fd : gmap string FlagDefinition) (w w' : World)
    (env : StartEnv) (flags : list (string * value)) :
  step fd w (StartRequest env flags) = Some w' →
  let r := start_server fd env flags (server w) in
  backend_dies r = false
  ∧ w' = {| server := after r;
            children := match spawned r with
                        | Some child => pid child :: children w
                        | None => children w
                        end |}.
Proof.
  simpl. destruct (backend_dies _); [done|]. by intros [= <-].
Qed.

Lemma step_status (fd : gmap string FlagDefinition) (w w' : World)
    (e : Event) :
  step fd w e = Some w' →
  serverStatus (server w) ≠ running → serverStatus (server w') ≠ running.
Proof.
  destruct e as [env flags|kill| | |p data now|p data now|p code now];
    simpl; intros Hstep Hrun.
  - apply step_start in Hstep as [_ ->]. simpl. by apply start_server_status.
  - injection Hstep as <-. simpl. unfold stop_server.
    destruct (llamaServerProcess (server w)); [|done].
    by destruct (kill _).
  - by injection Hstep as <-.
  - by injection Hstep as <-.
  - case_bool_decide; [|done]. injection Hstep as <-. simpl.
    unfold on_stdout_data, on_data. by destruct (negb _).
  - case_bool_decide; [|done]. injection Hstep as <-. simpl.
    unfold on_stderr_data, on_data. by destruct (negb _).
  - case_bool_decide; [|done]. by injection Hstep as <-.
Qed.

(** No assignment ever stores ['running']: the status of a reachable state
    is ['stopped'] or ['starting']. *)
Lemma running_unreachable (fd : gmap string FlagDefinition) (w : World) :
  reachable fd w → serverStatus (server w) ≠ running.
Proof.
  intros [events Hrun].
  assert (serverStatus (server init_world) ≠ running) as Hinit by done.
  revert Hrun Hinit. generalize init_world as w0. revert w.
  induction events as [|e events IH]; intros w w0 Hrun Hw0; simpl in Hrun.
  - by injection Hrun as <-.
  - destruct (step fd w0 e) as [w1|] eqn:Hstep; [|done].
    eapply IH; [exact Hrun|]. by eapply step_status.
Qed.

(** C1, evaluated on the code. After one accepted start the status is
    ['starting'] and child 101 is tracked; a second start request is then
    accepted as well: the reply is 200, a second child (102) is created and
    replaces the first one in [llamaServerProcess]. *)
Theorem second_start_while_starting_is_accepted :
  let r := start_server threads_schema (env_ok 102) model_selected started_once in
  serverStatus started_once = starting
  ∧ llamaServerProcess started_once
    = Some {| pid := 101; spawnfile := "bin/llama-server";
              spawnargs := ["--model"; "tiny.gguf"] |}
  ∧ statusCode (reply r) = 200
  ∧ spawned r = Some {| pid := 102; spawnfile := "bin/llama-server";
                        spawnargs := ["--model"; "tiny.gguf"] |}
  ∧ llamaServerProcess (after r) = spawned r.
Proof. repeat split. Qed.

(** C2, evaluated on the code. An accepted start request leaves the status
    at ['starting']: the status query that follows reports ['starting'],
    not ['running'], and still does after the child has written output. *)
Theorem status_after_accepted_start_is_starting :
  let r := start_server threads_schema (env_ok 101) model_selected initial in
  statusCode (reply r) = 200
  ∧ spawned r = Some {| pid := 101; spawnfile := "bin/llama-server";
                        spawnargs := ["--model"; "tiny.gguf"] |}
  ∧ status (server_status (after r)) = starting
  ∧ status (server_status (on_stdout_data "server listening" 7 (after r)))
    = starting.
Proof. repeat split. Qed.


(** ** White space *)

Lemma chars_inj (s t : string) : chars s = chars t → s = t.
Proof.
  intros Heq.
  rewrite <- (String.string_of_list_ascii_of_string s),
          <- (String.string_of_list_ascii_of_string t).
  unfold chars in Heq. by rewrite Heq.
Qed.

Lemma chars_app (s t : string) : chars (s +:+ t) = chars s ++ chars t.
Proof. induction s as [|a s IH]; simpl; [done|]. by rewrite IH. Qed.

Lemma chars_rev_app (s1 s2 : string) :
  chars (String.rev_app s1 s2) = rev (chars s1) ++ chars s2.
Proof.
  revert s2. induction s1 as [|a s1 IH]; intros s2; simpl; [done|].
  rewrite IH. simpl. by rewrite <- app_assoc.
Qed.

Lemma chars_rev (s : string) : chars (String.rev s) = rev (chars s).
Proof. unfold String.rev. rewrite chars_rev_app. simpl. apply app_nil_r. Qed.

Lemma rev_rev (s : string) : String.rev (String.rev s) = s.
Proof. apply chars_inj. by rewrite !chars_rev, rev_involutive. Qed.

Lemma rev_app (s t : string) :
  String.rev (s +:+ t) = String.rev t +:+ String.rev s.
Proof.
  apply chars_inj. by rewrite chars_app, !chars_rev, chars_app, rev_app_distr.
Qed.

Lemma append_assoc (s t u : string) : (s +:+ t) +:+ u = s +:+ t +:+ u.
Proof. apply chars_inj. by rewrite !chars_app, app_assoc. Qed.

Lemma append_empty (s : string) : s +:+ "" = s.
Proof. apply chars_inj. rewrite chars_app. apply app_nil_r. Qed.

Lemma head_rev {A : Type} (l : list A) : head (rev l) = last l.
Proof.
  induction l as [|x l IH] using rev_ind; [done|].
  by rewrite rev_app_distr, last_snoc.
Qed.

Lemma head_app_some {A : Type} (l k : list A) (x : A) :
  head l = Some x → head (l ++ k) = Some x.
Proof. by destruct l. Qed.

Lemma blank_single (w : string) : w ∈ white_space → blank w.
Proof.
  intros Hw. rewrite <- (append_empty w). apply blank_more; [done|constructor].
Qed.

Lemma blank_app (s t : string) : blank s → blank t → blank (s +:+ t).
Proof.
  intros Hs Ht. induction Hs as [|w s Hw Hs IH]; [done|].
  rewrite append_assoc. by apply blank_more.
Qed.

Lemma is_white_elem (w : string) : is_white w = true → w ∈ white_space.
Proof.
  unfold is_white. intros (x & Hin & Heq)%existsb_exists.
  apply String.eqb_eq in Heq as ->. by apply list_elem_of_In.
Qed.

Lemma is_space_white (backwards : bool) (c : Ascii.ascii) :
  Ascii.is_space c = true → is_white (word backwards [c]) = true.
Proof.
  destruct backwards;
    destruct c as [[] [] [] [] [] [] [] []]; simpl; try discriminate;
    intros _; reflexivity.
Qed.

(** Stripping takes a run of white space off the front (off the back, on a
    reversed string) and stops at a byte that is no white space. *)
Lemma strip_split (backwards : bool) (n : nat) (s : string) :
  (String.length s ≤ n)%nat →
  ∃ p, s = p +:+ strip_spaces backwards s
       ∧ blank (if backwards then String.rev p else p)
       ∧ (∀ c, head (chars (strip_spaces backwards s)) = Some c →
               Ascii.is_space c = false).
Proof.
  revert s. induction n as [|n IH]; intros s Hlen.
  { destruct s; [|simpl in Hlen; lia]. exists "".
    split; [done|]. split; [destruct backwards; constructor|done]. }
  destruct s as [|a rest].
  { exists "". split; [done|]. split; [destruct backwards; constructor|done]. }
  assert (is_white (word backwards [a]) = false →
          ∃ p, String a rest = p +:+ String a rest
               ∧ blank (if backwards then String.rev p else p)
               ∧ (∀ c, head (chars (String a rest)) = Some c →
                       Ascii.is_space c = false)) as Hstop.
  { intros Hnot. exists "". split; [done|].
    split; [destruct backwards; constructor|].
    simpl. intros c [= <-]. destruct (Ascii.is_space a) eqn:Ha; [|done].
    by rewrite (is_space_white backwards a Ha) in Hnot. }
  assert (∀ read tail,
            String a rest = String.string_of_list_ascii read +:+ tail →
            (String.length tail ≤ n)%nat →
            is_white (word backwards read) = true →
            ∃ p, String a rest = p +:+ strip_spaces backwards tail
                 ∧ blank (if backwards then String.rev p else p)
                 ∧ (∀ c, head (chars (strip_spaces backwards tail)) = Some c →
                         Ascii.is_space c = false)) as Hgo.
  { intros read tail Hs Htail Hwhite%is_white_elem.
    destruct (IH tail Htail) as (p & Hp & Hblank & Hhead).
    exists (String.string_of_list_ascii read +:+ p).
    split; [by rewrite append_assoc, <- Hp|]. split; [|done].
    unfold word in Hwhite. destruct backwards.
    - rewrite rev_app. apply blank_app; [done|]. apply blank_single.
      replace (String.rev (String.string_of_list_ascii read))
        with (String.string_of_list_ascii (rev read)); [done|].
      apply chars_inj. rewrite chars_rev. unfold chars.
      by rewrite !String.list_ascii_of_string_of_list_ascii.
    - by apply blank_more. }
  cbn [strip_spaces]. simpl in Hlen.
  destruct (is_white (word backwards [a])) eqn:H1.
  { apply (Hgo [a] rest); [done|lia|done]. }
  destruct rest as [|b rest2]; [by apply Hstop|]. simpl in Hlen.
  destruct (is_white (word backwards [a; b])) eqn:H2.
  { apply (Hgo [a; b] rest2); [done|lia|done]. }
  destruct rest2 as [|c rest3]; [by apply Hstop|]. simpl in Hlen.
  destruct (is_white (word backwards [a; b; c])) eqn:H3.
  { apply (Hgo [a; b; c] rest3); [done|lia|done]. }
  by apply Hstop.
Qed.

Lemma strip_white (w s : string) :
  w ∈ white_space → strip_spaces false (w +:+ s) = strip_spaces false s.
Proof.
  intros Hw. unfold white_space in Hw. simpl in Hw.
  repeat (apply elem_of_cons in Hw as [->|Hw]; [reflexivity|]).
  by apply not_elem_of_nil in Hw.
Qed.

Lemma trimStart_blank (s : string) : blank s → trimStart s = "".
Proof.
  unfold trimStart. induction 1 as [|w s Hw Hs IH]; [done|].
  by rewrite strip_white.
Qed.

(** [trim] takes a run of white space off each end and leaves a string
    with no one-byte white space at either end. *)
Lemma trim_split (s : string) :
  ∃ p q, s = p +:+ trim s +:+ q ∧ blank p ∧ blank q ∧ trimmed (trim s).
Proof.
  unfold trim, trimEnd, trimStart.
  destruct (strip_split false (String.length s) s) as (p & Hs & Hp & Hhead);
    [done|].
  set (t := strip_spaces false s) in *.
  destruct (strip_split true (String.length (String.rev t)) (String.rev t))
    as (q & Hr & Hq & Hlast); [done|].
  set (u := strip_spaces true (String.rev t)) in *.
  assert (t = String.rev u +:+ String.rev q) as Ht.
  { rewrite <- (rev_rev t), Hr. apply rev_app. }
  exists p, (String.rev q). split; [by rewrite <- Ht|].
  split; [done|]. split; [done|]. unfold trimmed. rewrite chars_rev. split.
  - intros c Hc. apply Hhead. rewrite Ht, chars_app, chars_rev.
    by apply head_app_some.
  - intros c Hc. apply Hlast. by rewrite <- head_rev, rev_involutive in Hc.
Qed.


Lemma trim_empty_iff_blank (s : string) : trim s = "" ↔ blank s.
Proof.
  split.
  - intros Hempty. destruct (trim_split s) as (p & q & Hs & Hp & Hq & _).
    rewrite Hs, Hempty. by apply blank_app.
  - intros Hblank. unfold trim, trimEnd. by rewrite (trimStart_blank s Hblank).
Qed.

(** ** The log buffer *)

Lemma on_data_blank_or_pushed (kind : LogType) (data : string) (now : Z)
    (s : State) :
  (blank data → serverLogs (on_data kind data now s) = serverLogs s)
  ∧ (¬ blank data →
     serverLogs (on_data kind data now s)
     = serverLogs s
       ++ [{| type := kind; message := trim data; timestamp := now |}]).
Proof.
  pose proof (trim_empty_iff_blank data) as Hblank. unfold on_data.
  destruct (String.eqb_spec (trim data) "") as [Hempty|Hne]; simpl.
  - split; [done|]. intros Hnot. by apply Hblank in Hempty.
  - split; [|done]. intros Hdata. by apply Hblank in Hdata.
Qed.

Lemma start_server_logs (fd : gmap string FlagDefinition) (env : StartEnv)
    (flags : list (string * value)) (s : State) :
  serverLogs (after (start_server fd env flags s)) = serverLogs s.
Proof.
  unfold start_server. destruct (decide _); [done|].
  destruct (checkLlamaServer env); [|done].
  destruct (readdirSync env); [|done].
  destruct (Nat.eqb _ _); [done|].
  destruct (_ && _); [done|].
  destruct (build_command fd flags) as [args|text]; [|done].
  by destruct (spawn env _ args) as [[p|]|text].
Qed.

Lemma stop_server_state (kill : Z → completion unit) (s : State) :
  snd (stop_server kill s) = s.
Proof.
  unfold stop_server. destruct (llamaServerProcess s); [|done].
  by destruct (kill _).
Qed.

Lemma slice_last_suffix {A : Type} (n : nat) (l : list A) :
  l = take (length l - n) l ++ slice_last n l
  ∧ length (slice_last n l) = Nat.min n (length l).
Proof.
  unfold slice_last. split; [by rewrite take_drop|].
  rewrite length_drop. lia.
Qed.

(** A live child that writes [n] non-blank chunks adds [n] entries. *)
Lemma chatty_child (fd : gmap string FlagDefinition) (p : Z) (n : nat)
    (w : World) :
  p ∈ children w →
  ∃ w', run fd w (replicate n (StdoutData p "tick" 0)) = Some w'
        ∧ length (serverLogs (server w'))
          = (length (serverLogs (server w)) + n)%nat.
Proof.
  revert w. induction n as [|n IH]; intros w Hlive; simpl.
  - exists w. split; [done|lia].
  - rewrite bool_decide_eq_true_2 by done.
    destruct (IH {| server := on_stdout_data "tick" 0 (server w);
                    children := children w |} Hlive) as (w' & Hrun & Hlen).
    exists w'. split; [exact Hrun|]. rewrite Hlen. simpl.
    rewrite length_app. simpl. lia.
Qed.

(** With any catalogue, the first start with a model selected is accepted. *)
Lemma first_start_accepted (fd : gmap string FlagDefinition) (p : Z) :
  start_server fd (env_ok p) model_selected initial
  = let child := {| pid := p; spawnfile := "bin/llama-server";
                    spawnargs := build_args fd model_selected |} in
    {| reply := {| statusCode := 200; body := starting_body |};
       spawned := Some child;
       after := set_process (Some child) (set_status starting initial);
       backend_dies := false |}.
Proof.
  apply (start_accepted fd (env_ok p) model_selected initial
           "bin/llama-server" ["tiny.gguf"] p); try done.
  - by left.
  - unfold model_selected, push_throws. cbn [existsb String_throws].
    by rewrite andb_false_r.
Qed.

Lemma buffer_of_any_length (fd : gmap string FlagDefinition) (n : nat) :
  ∃ w, reachable fd w ∧ length (serverLogs (server w)) = n.
Proof.
  pose (w1 := {| server := after (start_server fd (env_ok 101) model_selected initial);
                 children := [101] |}).
  destruct (chatty_child fd 101 n w1) as (w' & Hrun & Hlen).
  { apply list_elem_of_here. }
  exists w'. split.
  - exists (StartRequest (env_ok 101) model_selected
            :: replicate n (StdoutData 101 "tick" 0)).
    cbn [run step]. subst w1. rewrite first_start_accepted in *. exact Hrun.
  - rewrite Hlen. subst w1. cbn [server]. by rewrite start_server_logs.
Qed.

(** C3, as the claim states it, fails: no count bounds the buffer over the
    reachable states; a child that keeps writing makes it as long as one
    likes. *)
Lemma log_buffer_has_no_bound :
  ¬ ∃ max : nat, ∀ w : World,
      reachable threads_schema w →
      (length (serverLogs (server w)) ≤ max)%nat.
Proof.
  intros [max Hbound].
  destruct (buffer_of_any_length threads_schema (S max)) as (w & Hreach & Hlen).
  specialize (Hbound w Hreach). lia.
Qed.

(** C3, amended. The buffer has no retained-count bound and nothing is
    evicted: a ['data'] callback keeps every entry and adds exactly one at
    the end, with the trimmed chunk for a message, unless the chunk is
    nothing but white space, when it adds none; the ['close'] callback
    keeps every entry and adds exactly one; start and stop requests leave
    the buffer alone, and only the clear-logs request empties it, so a
    buffer of every length is reachable.  The one bound is on the status
    query, which returns the last [min 100 (length serverLogs)] entries in
    order and leaves the buffer as it is. *)
Theorem log_buffer_grows_and_status_window_is_100 :
  (∀ (kind : LogType) (data : string) (now : Z) (s : State),
     (blank data → serverLogs (on_data kind data now s) = serverLogs s)
     ∧ (¬ blank data →
        serverLogs (on_data kind data now s)
        = serverLogs s
          ++ [{| type := kind; message := trim data; timestamp := now |}]))
  ∧ (∀ (code : value) (now : Z) (s : State),
       ∃ entry, serverLogs (on_close code now s) = serverLogs s ++ [entry])
  ∧ (∀ (fd : gmap string FlagDefinition) (env : StartEnv)
       (flags : list (string * value)) (s : State),
       serverLogs (after (start_server fd env flags s)) = serverLogs s)
  ∧ (∀ (kill : Z → completion unit) (s : State),
       serverLogs (snd (stop_server kill s)) = serverLogs s)
  ∧ (∀ s : State, serverLogs (snd (clear_logs s)) = [])
  ∧ (∀ s : State,
       (∃ older, serverLogs s = older ++ logs (server_status s))
       ∧ length (logs (server_status s))
         = Nat.min 100 (length (serverLogs s)))
  ∧ (∀ (fd : gmap string FlagDefinition) (n : nat),
       ∃ w, reachable fd w ∧ length (serverLogs (server w)) = n).
Proof.
  split; [exact on_data_blank_or_pushed|].
  split; [intros code now s; by eexists|].
  split; [exact start_server_logs|].
  split; [intros kill s; by rewrite stop_server_state|].
  split; [done|].
  split; [|exact buffer_of_any_length].
  intros s. destruct (slice_last_suffix 100 (serverLogs s)) as [Hsplit Hlen].
  split; [|exact Hlen]. eexists. exact Hsplit.
Qed.

(** * Further properties of the backend *)

(** ** Outcomes of a start request *)

(** The ways the start handler ends: a refusal that touches nothing, the
    [catch] block, an accepted start with a child process, or an accepted
    start whose child has no process. *)
Lemma start_server_cases (fd : gmap string FlagDefinition) (env : StartEnv)
    (flags : list (string * value)) (s : State) :
  let r := start_server fd env flags s in
  (spawned r = None ∧ after r = s ∧ backend_dies r = false
   ∧ (statusCode (reply r) = 400 ∨ statusCode (reply r) = 503))
  ∨ (spawned r = None ∧ after r = set_status stopped s
     ∧ backend_dies r = false
     ∧ statusCode (reply r) = 500
     ∧ ∃ text, body (reply r) = error_body text
               ∧ (readdirSync env = Throws text
                  ∨ (existsb (push_throws fd) flags = true
                     ∧ text = not_primitive)
                  ∨ ∃ path, spawn env path (build_args fd flags) = Throws text))
  ∨ (∃ child, spawned r = Some child
              ∧ after r = set_process (Some child) (set_status starting s)
              ∧ backend_dies r = false
              ∧ statusCode (reply r) = 200
              ∧ spawnargs child = build_args fd flags
              ∧ checkLlamaServer env = Some (spawnfile child)
              ∧ spawn env (spawnfile child) (build_args fd flags)
                = Returns (Some (pid child)))
  ∨ (spawned r = None ∧ after r = set_status starting s
     ∧ backend_dies r = true
     ∧ statusCode (reply r) = 200
     ∧ ∃ path, spawn env path (build_args fd flags) = Returns None).
Proof.
  simpl. unfold start_server.
  destruct (decide (serverStatus s = running)); [left; simpl; auto|].
  destruct (checkLlamaServer env) as [path|]; [|left; simpl; auto].
  destruct (readdirSync env) as [files|text].
  - destruct (Nat.eqb _ _); [left; simpl; auto|].
    destruct (_ && _); [left; simpl; auto|].
    rewrite build_command_spec.
    destruct (existsb (push_throws fd) flags) eqn:Hthrows.
    { right; left. simpl. repeat split; try done.
      exists not_primitive. split; [done|]. right; left. done. }
    destruct (spawn env path (build_args fd flags)) as [[p|]|text] eqn:Hspawn.
    + right; right; left. eexists. simpl. by repeat split.
    + right; right; right. simpl. repeat split; try done. by exists path.
    + right; left. simpl. repeat split; try done.
      exists text. split; [done|]. right; right. by exists path.
  - right; left. simpl. repeat split; try done.
    exists text. split; [done|]. by left.
Qed.

(** X1. The reply of a start request (with an object for a body) tells what
    happened: its status is 200, 400, 500 or 503; a child process is
    created only under a 200 reply; a 200 reply without a child process
    means that [spawn] returned a child object with no process, and the
    backend then ends on the unhandled ['error'] event; after a 200 reply
    the status is ['starting'] and, when the backend lives on, the new child
    is the tracked one; after 400 or 503 the globals are what they were;
    after 500 only the status changed, to ['stopped'].  The log buffer is
    never touched. *)
Theorem start_reply_tells_outcome (fd : gmap string FlagDefinition)
    (env : StartEnv) (flags : list (string * value)) (s : State) :
  let r := start_server fd env flags s in
  (statusCode (reply r) = 200 ∨ statusCode (reply r) = 400
   ∨ statusCode (reply r) = 500 ∨ statusCode (reply r) = 503)
  ∧ (is_Some (spawned r) → statusCode (reply r) = 200)
  ∧ (backend_dies r = true
     ↔ statusCode (reply r) = 200 ∧ spawned r = None)
  ∧ (backend_dies r = true →
     ∃ path, spawn env path (build_args fd flags) = Returns None)
  ∧ (statusCode (reply r) = 200 →
     serverStatus (after r) = starting
     ∧ (backend_dies r = false →
        is_Some (spawned r) ∧ llamaServerProcess (after r) = spawned r))
  ∧ (statusCode (reply r) = 400 ∨ statusCode (reply r) = 503 → after r = s)
  ∧ (statusCode (reply r) = 500 → after r = set_status stopped s)
  ∧ serverLogs (after r) = serverLogs s.
Proof.
  pose proof (start_server_cases fd env flags s) as Hcases. simpl in *.
  destruct Hcases
    as [(Hsp & Haf & Hdies & Hcode)
       |[(Hsp & Haf & Hdies & Hcode & _)
        |[(child & Hsp & Haf & Hdies & Hcode & _)
         |(Hsp & Haf & Hdies & Hcode & Hspawn)]]];
    rewrite Hsp, Haf, Hdies.
  - assert (statusCode (reply (start_server fd env flags s)) ≠ 200
            ∧ statusCode (reply (start_server fd env flags s)) ≠ 500)
      as [H200 H500] by (destruct Hcode as [-> | ->]; done).
    split; [tauto|]. split; [by intros [? ?]|].
    split; [split; [done|by intros [? _]]|]. by repeat split.
  - rewrite Hcode. split; [auto|]. split; [by intros [? ?]|].
    split; [split; [done|by intros [? _]]|].
    repeat split; try done. by intros [|].
  - rewrite Hcode. split; [auto|]. split; [done|].
    split; [split; [done|by intros [_ ?]]|].
    repeat split; try done; try (by eexists). by intros [|].
  - rewrite Hcode. split; [auto|]. split; [by intros [? ?]|].
    split; [done|]. repeat split; try done. by intros [|].
Qed.

(** X2. A reply with status 500 to a start request (with an object for a
    body) carries the message of the call that threw: [fs.readdirSync], a
    [String(value)] of the argument loop, or [spawn].  The status is then
    ['stopped'] whatever it was, while the tracked child and the log buffer
    stay as they were, so a failed restart leaves a running child tracked
    under status ['stopped']. *)
Theorem failed_start_keeps_child (fd : gmap string FlagDefinition)
    (env : StartEnv) (flags : list (string * value)) (s : State) :
  statusCode (reply (start_server fd env flags s)) = 500 →
  let r := start_server fd env flags s in
  (∃ text, body (reply r) = error_body text
           ∧ (readdirSync env = Throws text
              ∨ (existsb (push_throws fd) flags = true ∧ text = not_primitive)
              ∨ ∃ path, spawn env path (build_args fd flags) = Throws text))
  ∧ spawned r = None
  ∧ backend_dies r = false
  ∧ serverStatus (after r) = stopped
  ∧ llamaServerProcess (after r) = llamaServerProcess s
  ∧ serverLogs (after r) = serverLogs s.
Proof.
  intros Hcode. pose proof (start_server_cases fd env flags s) as Hcases.
  simpl in *.
  destruct Hcases
    as [(_ & _ & _ & Hc)
       |[(Hsp & Haf & Hdies & _ & Htext)
        |[(child & _ & _ & _ & Hc & _)|(_ & _ & _ & Hc & _)]]].
  - rewrite Hcode in Hc. by destruct Hc.
  - rewrite Hsp, Haf, Hdies. by repeat split.
  - by rewrite Hcode in Hc.
  - by rewrite Hcode in Hc.
Qed.

Lemma failed_start_keeps_child_witness :
  let r := start_server threads_schema env_unreadable model_selected started_once in
  statusCode (reply r) = 500
  ∧ (∃ text, body (reply r) = error_body text
             ∧ (readdirSync env_unreadable = Throws text
                ∨ (existsb (push_throws threads_schema) model_selected = true
                   ∧ text = not_primitive)
                ∨ ∃ path, spawn env_unreadable path
                            (build_args threads_schema model_selected)
                          = Throws text))
  ∧ spawned r = None
  ∧ backend_dies r = false
  ∧ serverStatus (after r) = stopped
  ∧ llamaServerProcess (after r) = llamaServerProcess started_once
  ∧ serverLogs (after r) = serverLogs started_once.
Proof.
  split; [reflexivity|].
  exact (failed_start_keeps_child threads_schema env_unreadable model_selected
           started_once eq_refl).
Defined.

(** ** Invariants of the event loop *)

Lemma run_app (fd : gmap string FlagDefinition) (w : World)
    (first second : list Event) :
  run fd w (first ++ second)
  = match run fd w first with
    | Some w' => run fd w' second
    | None => None
    end.
Proof.
  revert w. induction first as [|e first IH]; intros w; simpl; [done|].
  by destruct (step fd w e).
Qed.

(** What holds initially and is kept by every turn of the event loop holds
    in every reachable state. *)
Lemma reachable_ind (fd : gmap string FlagDefinition) (P : World → Prop) :
  P init_world →
  (∀ w e w', P w → step fd w e = Some w' → P w') →
  ∀ w, reachable fd w → P w.
Proof.
  intros Hinit Hstep w [events Hrun]. revert Hrun Hinit.
  generalize init_world as w0.
  induction events as [|e events IH]; intros w0 Hrun Hw0; simpl in Hrun.
  - by injection Hrun as <-.
  - destruct (step fd w0 e) as [w1|] eqn:He; [|done]. eauto.
Qed.

Lemma reachable_step (fd : gmap string FlagDefinition) (w w' : World)
    (e : Event) :
  reachable fd w → step fd w e = Some w' → reachable fd w'.
Proof.
  intros [events Hrun] Hstep. exists (events ++ [e]).
  rewrite run_app, Hrun. simpl. by rewrite Hstep.
Qed.

Lemma on_data_keeps (kind : LogType) (data : string) (now : Z) (s : State) :
  llamaServerProcess (on_data kind data now s) = llamaServerProcess s
  ∧ serverStatus (on_data kind data now s) = serverStatus s.
Proof. unfold on_data. by destruct (negb _). Qed.

Lemma tracking_ok_step (fd : gmap string FlagDefinition) (w w' : World)
    (e : Event) :
  tracking_ok w → step fd w e = Some w' → tracking_ok w'.
Proof.
  intros [Hlive Hstart] Hstep.
  destruct e as [env flags|kill| | |p data now|p data now|p code now];
    [apply step_start in Hstep as [Hdies ->]|simpl in Hstep..].
  - unfold tracking_ok. cbn [server children].
    destruct (start_server_cases fd env flags (server w))
      as [(Hsp & Haf & _)
         |[(Hsp & Haf & _)
          |[(child & Hsp & Haf & _)|(_ & _ & Htrue & _)]]];
      [simpl in Hsp, Haf; rewrite Hsp, Haf; simpl..|congruence].
    + by split.
    + by split.
    + split; [|by eexists]. intros c [= <-]. apply list_elem_of_here.
  - injection Hstep as <-. unfold tracking_ok. cbn [server children].
    rewrite stop_server_state. by split.
  - injection Hstep as <-. by split.
  - injection Hstep as <-. by split.
  - case_bool_decide; [|done]. injection Hstep as <-.
    unfold tracking_ok, on_stdout_data. cbn [server children].
    destruct (on_data_keeps stdout data now (server w)) as [-> ->]. by split.
  - case_bool_decide; [|done]. injection Hstep as <-.
    unfold tracking_ok, on_stderr_data. cbn [server children].
    destruct (on_data_keeps stderr data now (server w)) as [-> ->]. by split.
  - case_bool_decide; [|done]. injection Hstep as <-. by split.
Qed.

Lemma tracking_ok_reachable (fd : gmap string FlagDefinition) (w : World) :
  reachable fd w → tracking_ok w.
Proof.
  apply (reachable_ind fd tracking_ok).
  - by split.
  - intros w0 e w1. apply tracking_ok_step.
Qed.

Lemma status_two_valued (fd : gmap string FlagDefinition) (w : World) :
  reachable fd w →
  serverStatus (server w) = stopped ∨ serverStatus (server w) = starting.
Proof.
  intros Hreach. pose proof (running_unreachable fd w Hreach).
  destruct (serverStatus (server w)); auto. done.
Qed.

Lemma world_started_once_reachable :
  reachable threads_schema world_started_once.
Proof. exists [StartRequest (env_ok 101) model_selected]. reflexivity. Defined.

(** X3. In every state the event loop can reach, the status a status query
    reports is ['stopped'] or ['starting'], never ['running']. *)
Theorem reported_status_is_stopped_or_starting
    (fd : gmap string FlagDefinition) (w : World) :
  reachable fd w →
  status (server_status (server w)) = stopped
  ∨ status (server_status (server w)) = starting.
Proof. apply status_two_valued. Qed.

Lemma reported_status_is_stopped_or_starting_witness :
  reachable threads_schema world_started_once
  ∧ (status (server_status (server world_started_once)) = stopped
     ∨ status (server_status (server world_started_once)) = starting).
Proof.
  split; [exact world_started_once_reachable|].
  exact (reported_status_is_stopped_or_starting threads_schema
           world_started_once world_started_once_reachable).
Defined.

(** X4. In every reachable state the tracked child, if there is one, is a
    child that is still alive, and status ['starting'] implies that a child
    is tracked; so when no child is alive nothing is tracked and the status
    is ['stopped']. *)
Theorem tracked_child_is_alive (fd : gmap string FlagDefinition)
    (w : World) :
  reachable fd w →
  (∀ c, llamaServerProcess (server w) = Some c → pid c ∈ children w)
  ∧ (serverStatus (server w) = starting →
     ∃ c, llamaServerProcess (server w) = Some c ∧ pid c ∈ children w)
  ∧ (children w = [] →
     llamaServerProcess (server w) = None
     ∧ serverStatus (server w) = stopped).
Proof.
  intros Hreach. destruct (tracking_ok_reachable fd w Hreach) as [Hlive Hst].
  split; [exact Hlive|]. split.
  - intros [c Hc]%Hst. eauto.
  - intros Hnone.
    assert (llamaServerProcess (server w) = None) as Hproc.
    { destruct (llamaServerProcess (server w)) as [c|] eqn:Hc; [|done].
      specialize (Hlive c eq_refl). rewrite Hnone in Hlive.
      by apply not_elem_of_nil in Hlive. }
    split; [exact Hproc|].
    destruct (status_two_valued fd w Hreach) as [?|Hs]; [done|].
    apply Hst in Hs. rewrite Hproc in Hs. by destruct Hs.
Qed.

Lemma tracked_child_is_alive_witness :
  reachable threads_schema world_started_once
  ∧ (∀ c, llamaServerProcess (server world_started_once) = Some c →
          pid c ∈ children world_started_once)
  ∧ (serverStatus (server world_started_once) = starting →
     ∃ c, llamaServerProcess (server world_started_once) = Some c
          ∧ pid c ∈ children world_started_once)
  ∧ (children world_started_once = [] →
     llamaServerProcess (server world_started_once) = None
     ∧ serverStatus (server world_started_once) = stopped).
Proof.
  split; [exact world_started_once_reachable|].
  exact (tracked_child_is_alive threads_schema world_started_once
           world_started_once_reachable).
Defined.

(** ** Stop requests and the page's buttons *)

(** X5. A stop request never changes the globals (only the ['close']
    callback does); it replies 400 exactly when no child is tracked, and
    otherwise its reply depends only on what [process.kill] does with the
    negated pid of the tracked child, the process group. *)
Theorem stop_only_signals (kill : Z → completion unit) (s : State) :
  snd (stop_server kill s) = s
  ∧ (statusCode (fst (stop_server kill s)) = 400
     ↔ llamaServerProcess s = None)
  ∧ (∀ c, llamaServerProcess s = Some c →
          (kill (- pid c) = Returns tt →
           statusCode (fst (stop_server kill s)) = 200)
          ∧ (∀ text, kill (- pid c) = Throws text →
                     fst (stop_server kill s)
                     = {| statusCode := 500; body := error_body text |})
          ∧ (∀ kill' : Z → completion unit,
               kill' (- pid c) = kill (- pid c) →
               stop_server kill' s = stop_server kill s)).
Proof.
  split; [apply stop_server_state|]. unfold stop_server.
  destruct (llamaServerProcess s) as [child|]; [|by repeat split].
  split.
  - split; [|done]. by destruct (kill (- pid child)).
  - intros c [= <-]. split; [by intros ->|]. split; [by intros text ->|].
    by intros kill' ->.
Qed.

(** X6. Whenever a status poll leaves the page's Stop button enabled, a stop
    request does not reply 400: a child is tracked, it is alive, and the
    signal goes to its process group. *)
Theorem enabled_stop_button_finds_child (fd : gmap string FlagDefinition)
    (w : World) (kill : Z → completion unit) :
  reachable fd w →
  Client.stopBtn (Client.updateStatus (status (server_status (server w))))
  = false →
  statusCode (fst (stop_server kill (server w))) ≠ 400
  ∧ ∃ c, llamaServerProcess (server w) = Some c ∧ pid c ∈ children w.
Proof.
  intros Hreach Hbtn.
  assert (serverStatus (server w) = starting) as Hs.
  { destruct (status_two_valued fd w Hreach) as [Hs|Hs]; [|done].
    simpl in Hbtn. by rewrite Hs in Hbtn. }
  destruct (tracking_ok_reachable fd w Hreach) as [Hlive Hst].
  destruct (Hst Hs) as [c Hc]. split; [|eauto].
  unfold stop_server. rewrite Hc. by destruct (kill _).
Qed.

Lemma enabled_stop_button_finds_child_witness :
  let kill := fun _ : Z => Returns tt in
  reachable threads_schema world_started_once
  ∧ Client.stopBtn
      (Client.updateStatus (status (server_status (server world_started_once))))
    = false
  ∧ statusCode (fst (stop_server kill (server world_started_once))) ≠ 400
  ∧ ∃ c, llamaServerProcess (server world_started_once) = Some c
         ∧ pid c ∈ children world_started_once.
Proof.
  split; [exact world_started_once_reachable|]. split; [reflexivity|].
  exact (enabled_stop_button_finds_child threads_schema world_started_once
           (fun _ => Returns tt) world_started_once_reachable eq_refl).
Defined.

(** X7. No status poll ever enables the page's Open Chat button: it is
    enabled only for status ['running'], which no reachable state has; the
    Start button is disabled exactly while the status is ['starting']. *)
Theorem open_chat_button_stays_disabled (fd : gmap string FlagDefinition)
    (w : World) :
  reachable fd w →
  let buttons := Client.updateStatus (status (server_status (server w))) in
  Client.openChatBtn buttons = true
  ∧ (Client.startBtn buttons = true ↔ serverStatus (server w) = starting)
  ∧ (Client.stopBtn buttons = true ↔ serverStatus (server w) = stopped).
Proof.
  intros Hreach. simpl.
  destruct (status_two_valued fd w Hreach) as [-> | ->]; by repeat split.
Qed.

Lemma open_chat_button_stays_disabled_witness :
  let buttons :=
    Client.updateStatus (status (server_status (server world_started_once))) in
  reachable threads_schema world_started_once
  ∧ Client.openChatBtn buttons = true
  ∧ (Client.startBtn buttons = true
     ↔ serverStatus (server world_started_once) = starting)
  ∧ (Client.stopBtn buttons = true
     ↔ serverStatus (server world_started_once) = stopped).
Proof.
  split; [exact world_started_once_reachable|].
  exact (open_chat_button_stays_disabled threads_schema world_started_once
           world_started_once_reachable).
Defined.

(** ** The status window *)

Lemma slice_last_snoc {A : Type} (n : nat) (l : list A) (x : A) :
  slice_last (S n) (l ++ [x]) = slice_last (S n) (slice_last (S n) l ++ [x])
  ∧ last (slice_last (S n) (l ++ [x])) = Some x.
Proof.
  unfold slice_last. rewrite !length_app, length_drop. simpl.
  split.
  - destruct (decide (length l ≤ S n)%nat) as [Hle|Hgt].
    + replace (length l - S n)%nat with 0%nat by lia. simpl.
      by replace (length l - 0 + 1 - S n)%nat
        with (length l + 1 - S n)%nat by lia.
    + replace (length l + 1 - S n)%nat with (S (length l - S n)) by lia.
      replace (length l - (length l - S n) + 1 - S n)%nat with 1%nat by lia.
      rewrite !drop_app_le by (rewrite ?length_drop; lia).
      rewrite (drop_drop l 1 (length l - S n)).
      by replace (length l - S n + 1)%nat with (S (length l - S n)) by lia.
  - rewrite drop_app_le by lia. by rewrite last_app.
Qed.

(** X8. Status windows slide: after an entry is pushed, the status query
    returns the last 100 of the previous window followed by the new entry,
    and the new entry is its last element; so the exit entry of a closed
    child is always in the next status reply. *)
Theorem status_window_slides :
  (∀ (entry : LogEntry) (s : State),
     logs (server_status (push_log entry s))
     = slice_last 100 (logs (server_status s) ++ [entry])
     ∧ last (logs (server_status (push_log entry s))) = Some entry)
  ∧ (∀ (code : value) (now : Z) (s : State),
       last (logs (server_status (on_close code now s)))
       = Some {| type := exit;
                 message := "Process exited with code " +:+ ToString code;
                 timestamp := now |}).
Proof.
  split.
  - intros entry s. unfold server_status, push_log. cbn [logs serverLogs].
    apply slice_last_snoc.
  - intros code now s. unfold server_status, on_close, set_process, push_log.
    cbn [logs serverLogs]. apply slice_last_snoc.
Qed.

(** ** Trimming and the messages in the buffer *)

(** X10. A chunk of output that is nothing but white space (the white space
    and line terminators [trim] strips, Unicode ones included) pushes no
    entry and changes nothing; every other chunk pushes exactly one entry,
    of the stream's type, whose message is the trimmed chunk and is not
    empty. *)
Theorem blank_chunk_is_dropped (kind : LogType) (data : string) (now : Z)
    (s : State) :
  (blank data → on_data kind data now s = s)
  ∧ (¬ blank data →
     trim data ≠ ""
     ∧ on_data kind data now s
       = push_log {| type := kind; message := trim data; timestamp := now |} s).
Proof.
  pose proof (trim_empty_iff_blank data) as Hblank.
  unfold on_data. split.
  - intros ->%Hblank. done.
  - intros Hnot. destruct (String.eqb_spec (trim data) "") as [Hempty|Hne].
    + by apply Hblank in Hempty.
    + by split.
Qed.





(** ** The buffer along a run *)

Lemma exit_entries_app (l k : list LogEntry) :
  exit_entries (l ++ k) = (exit_entries l + exit_entries k)%nat.
Proof. unfold exit_entries. by rewrite filter_app, length_app. Qed.

Lemma on_data_appends (kind : LogType) (data : string) (now : Z) (s : State) :
  kind ≠ exit →
  ∃ new, serverLogs (on_data kind data now s) = serverLogs s ++ new
         ∧ exit_entries new = 0%nat.
Proof.
  intros Hkind. unfold on_data. destruct (negb _).
  - eexists [_]. split; [reflexivity|]. unfold exit_entries.
    by rewrite filter_cons_False.
  - exists []. by rewrite app_nil_r.
Qed.

Lemma step_appends (fd : gmap string FlagDefinition) (w w' : World)
    (e : Event) :
  step fd w e = Some w' → e ≠ ClearLogsRequest →
  ∃ new, serverLogs (server w') = serverLogs (server w) ++ new
         ∧ exit_entries new = (if is_close e then 1 else 0)%nat.
Proof.
  intros Hstep Hclear.
  destruct e as [env flags|kill| | |p data now|p data now|p code now];
    [apply step_start in Hstep as [_ ->]
    |simpl in Hstep; try done; try (case_bool_decide; [|done]);
     injection Hstep as <-..];
    cbn [server is_close].
  - exists []. by rewrite start_server_logs, app_nil_r.
  - exists []. by rewrite stop_server_state, app_nil_r.
  - exists []. by rewrite app_nil_r.
  - by apply on_data_appends.
  - by apply on_data_appends.
  - by eexists [_].
Qed.

(** X12. Along a run without a clear-logs request the buffer only grows at
    its end (what was in it stays, in place), and it gains exactly one exit
    entry for each ['close'] event of the run. *)
Theorem buffer_grows_between_clears (fd : gmap string FlagDefinition)
    (events : list Event) (w w' : World) :
  run fd w events = Some w' →
  Forall (λ e, e ≠ ClearLogsRequest) events →
  serverLogs (server w) `prefix_of` serverLogs (server w')
  ∧ exit_entries (serverLogs (server w'))
    = (exit_entries (serverLogs (server w)) + close_events events)%nat.
Proof.
  revert w. induction events as [|e events IH]; intros w Hrun Hclear;
    simpl in Hrun.
  - injection Hrun as <-. split; [done|]. unfold close_events. simpl. lia.
  - destruct (step fd w e) as [w1|] eqn:Hstep; [|done].
    apply Forall_cons in Hclear as [He Hclear].
    destruct (step_appends fd w w1 e Hstep He) as (new & Hnew & Hexits).
    destruct (IH w1 Hrun Hclear) as [Hprefix Hcount]. split.
    + etrans; [|exact Hprefix]. rewrite Hnew. by apply prefix_app_r.
    + rewrite Hcount, Hnew, exit_entries_app, Hexits.
      unfold close_events. simpl. destruct (is_close e); simpl; lia.
Qed.

Lemma buffer_grows_between_clears_witness :
  let w' := {| server := on_close JNull 9
                           (on_stdout_data "loading model" 8 started_once);
               children := [] |} in
  run threads_schema world_started_once quiet_run = Some w'
  ∧ Forall (λ e, e ≠ ClearLogsRequest) quiet_run
  ∧ serverLogs (server world_started_once) `prefix_of` serverLogs (server w')
  ∧ exit_entries (serverLogs (server w'))
    = (exit_entries (serverLogs (server world_started_once))
       + close_events quiet_run)%nat.
Proof.
  assert (Forall (λ e, e ≠ ClearLogsRequest) quiet_run) as Hclear
    by (repeat constructor; discriminate).
  split; [reflexivity|]. split; [exact Hclear|].
  exact (buffer_grows_between_clears threads_schema quiet_run
           world_started_once _ eq_refl Hclear).
Defined.

(** ** More on the argument builder *)

Lemma push_loop_concat {A : Type} (f : A → list string) (l : list A)
    (acc : list string) :
  fold_left (fun args x => args ++ f x) l acc = acc ++ concat (map f l).
Proof.
  revert acc. induction l as [|x l IH]; intros acc; simpl.
  - by rewrite app_nil_r.
  - by rewrite IH, app_assoc.
Qed.

Lemma build_args_concat (fd : gmap string FlagDefinition)
    (flags : list (string * value)) :
  build_args fd flags = concat (map (flag_tokens fd) flags).
Proof. unfold build_args. by rewrite push_loop_concat. Qed.

Lemma preview_args_concat (config : list (string * value)) :
  Client.preview_args config = concat (map Client.preview_tokens config).
Proof. unfold Client.preview_args. by rewrite push_loop_concat. Qed.

Lemma not_absent_guard (v : value) :
  ¬ absent v →
  strict_ne v (JString "") && strict_ne v JNull && strict_ne v JUndefined
  = true.
Proof.
  intros Hv. destruct v as [| |b|n|r|[|c t]|items|fields]; try reflexivity;
    exfalso; apply Hv; unfold absent; auto.
Qed.

(** X13. A value that is not a boolean, is not empty, is not strictly equal
    to the default of its flag and on which [String] does not throw
    contributes exactly two tokens, [--key] and [String(value)] as one token
    of its own; the number 0 is such a value, whatever the default. *)
Theorem value_flag_is_two_tokens (fd : gmap string FlagDefinition)
    (key : string) (v : value) (before after : list (string * value)) :
  typeof v ≠ "boolean" → ¬ absent v →
  strict_eq v (defaultValue fd key) = false →
  String_throws v = false → well_formed v = true →
  push_throws fd (key, v) = false
  ∧ flag_tokens fd (key, v) = ["--" +:+ key; ToString v]
  ∧ build_args fd (before ++ (key, v) :: after)
    = build_args fd before ++ ["--" +:+ key; ToString v]
      ++ build_args fd after.
Proof.
  intros Htype Hv Hne Hthrows _.
  assert (flag_tokens fd (key, v) = ["--" +:+ key; ToString v]) as Htok.
  { unfold flag_tokens. rewrite (not_absent_guard v Hv).
    unfold strict_ne at 1. rewrite Hne. simpl.
    destruct (String.eqb_spec (typeof v) "boolean"); done. }
  split; [by rewrite push_throws_String|].
  split; [exact Htok|]. by rewrite build_args_entry, Htok.
Qed.

Lemma value_flag_is_two_tokens_witness :
  (typeof (JNum 0) ≠ "boolean" ∧ ¬ absent (JNum 0)
   ∧ strict_eq (JNum 0) (defaultValue threads_schema "threads") = false
   ∧ String_throws (JNum 0) = false ∧ well_formed (JNum 0) = true)
  ∧ push_throws threads_schema ("threads", JNum 0) = false
  ∧ flag_tokens threads_schema ("threads", JNum 0) = ["--" +:+ "threads"; ToString (JNum 0)]
  ∧ build_args threads_schema ([] ++ ("threads", JNum 0) :: [])
    = build_args threads_schema [] ++ ["--" +:+ "threads"; ToString (JNum 0)]
      ++ build_args threads_schema [].
Proof.
  assert (typeof (JNum 0) ≠ "boolean") as Htype by discriminate.
  assert (¬ absent (JNum 0)) as Hv by (intros [?|[?|?]]; discriminate).
  assert (strict_eq (JNum 0) (defaultValue threads_schema "threads") = false)
    as Hne by reflexivity.
  split; [by repeat split|].
  exact (value_flag_is_two_tokens threads_schema "threads" (JNum 0) [] []
           Htype Hv Hne eq_refl eq_refl).
Defined.

Lemma flag_tokens_length (fd : gmap string FlagDefinition)
    (entry : string * value) :
  (length (flag_tokens fd entry) ≤ length (Client.preview_tokens entry))%nat
  ∧ (length (Client.preview_tokens entry) ≤ 2)%nat.
Proof.
  destruct entry as [key v]. unfold flag_tokens, Client.preview_tokens.
  destruct (_ && _); [|simpl; lia].
  destruct (strict_ne v (defaultValue fd key));
    destruct (String.eqb _ _); destruct (truthy v); simpl; lia.
Qed.

Lemma flag_tokens_origin (fd : gmap string FlagDefinition) (key : string)
    (v : value) (t : string) :
  t ∈ flag_tokens fd (key, v) →
  t = "--" +:+ key ∨ (t = ToString v ∧ typeof v ≠ "boolean" ∧ ¬ absent v).
Proof.
  unfold flag_tokens.
  destruct (_ && _) eqn:Hguard; [|by intros ?%not_elem_of_nil].
  destruct (strict_ne v (defaultValue fd key)); [|by intros ?%not_elem_of_nil].
  destruct (String.eqb_spec (typeof v) "boolean") as [Hb|Hb].
  - destruct (truthy v); [|by intros ?%not_elem_of_nil].
    intros ->%list_elem_of_singleton. by left.
  - intros [-> | ->%list_elem_of_singleton]%elem_of_cons; [by left|].
    right. repeat split; [done|].
    intros [-> | [-> | ->]]; discriminate.
Qed.

(** X14. The argument list holds nothing but what the entries of the request
    give: every token is [--key] for a key of the body, or [String(value)]
    of a non-boolean, non-empty value of the body; and there are at most two
    tokens per entry. *)
Theorem arguments_come_from_entries (fd : gmap string FlagDefinition)
    (flags : list (string * value)) :
  (∀ t, t ∈ build_args fd flags →
        ∃ key v, (key, v) ∈ flags
                 ∧ (t = "--" +:+ key
                    ∨ (t = ToString v ∧ typeof v ≠ "boolean" ∧ ¬ absent v)))
  ∧ (length (build_args fd flags) ≤ 2 * length flags)%nat.
Proof.
  induction flags as [|[key v] flags [IHin IHlen]].
  - split; [by intros t ?%not_elem_of_nil|simpl; lia].
  - rewrite build_args_cons. split.
    + intros t [Ht|Ht]%elem_of_app.
      * exists key, v. split; [apply list_elem_of_here|].
        by apply (flag_tokens_origin fd).
      * destruct (IHin t Ht) as (k & x & Hin & Hshape).
        exists k, x. split; [by apply list_elem_of_further|done].
    + rewrite length_app.
      pose proof (flag_tokens_length fd (key, v)).
      change (length ((key, v) :: flags)) with (S (length flags)). lia.
Qed.

(** X15. The command preview of the page and the arguments the backend
    passes agree: an entry that is not strictly equal to its default is
    previewed as exactly the tokens the backend pushes, with the value put in
    double quotes; an entry strictly equal to its default is dropped by the
    backend; so the backend never pushes more tokens than the preview
    shows. *)
Theorem preview_agrees_with_backend (fd : gmap string FlagDefinition) :
  (∀ (key : string) (v : value),
     strict_eq v (defaultValue fd key) = false →
     Client.preview_tokens (key, v) = quoted (flag_tokens fd (key, v)))
  ∧ (∀ (key : string) (v : value),
       strict_eq v (defaultValue fd key) = true →
       flag_tokens fd (key, v) = [])
  ∧ (∀ flags : list (string * value),
       (length (build_args fd flags)
        ≤ length (Client.preview_args flags))%nat).
Proof.
  split; [|split].
  - intros key v Hne. unfold flag_tokens, Client.preview_tokens.
    destruct (_ && _); [|done]. unfold strict_ne at 1. rewrite Hne. simpl.
    destruct (String.eqb _ _); [by destruct (truthy v)|done].
  - intros key v Heq. unfold flag_tokens, strict_ne at 4. rewrite Heq. simpl.
    by destruct (_ && _).
  - intros flags. rewrite build_args_concat, preview_args_concat.
    induction flags as [|entry flags IH]; simpl; [lia|].
    rewrite !length_app. pose proof (flag_tokens_length fd entry). lia.
Qed.

(** ** The models listing *)

Lemma model_entries_sized (sep dir : string) (statSync : string → completion Z)
    (size : string → Z) (names : list string) :
  (∀ f, f ∈ names → statSync (path_join sep dir f) = Returns (size f)) →
  model_entries sep dir statSync names
  = Returns (map (model_entry sep size) names).
Proof.
  induction names as [|f names IH]; intros Hstat; simpl; [done|].
  rewrite (Hstat f) by apply list_elem_of_here.
  rewrite IH; [done|]. intros g Hg. apply Hstat. by apply list_elem_of_further.
Qed.

Lemma model_entries_throw (sep dir : string) (statSync : string → completion Z)
    (names : list string) (f text : string) :
  f ∈ names → statSync (path_join sep dir f) = Throws text →
  ∃ text', model_entries sep dir statSync names = Throws text'.
Proof.
  induction names as [|g names IH]; intros Hin Hthrow; simpl.
  - by apply not_elem_of_nil in Hin.
  - destruct (statSync (path_join sep dir g)) as [size|text'] eqn:Hg; [|eauto].
    apply elem_of_cons in Hin as [->|Hin]; [congruence|].
    destruct (IH Hin Hthrow) as [text' ->]. eauto.
Qed.

Lemma elem_of_gguf (files : list string) (f : string) :
  f ∈ List.filter (endsWith ".gguf") files
  ↔ f ∈ files ∧ endsWith ".gguf" f = true.
Proof. rewrite !list_elem_of_In. apply filter_In. Qed.

(** X16. The models endpoint lists exactly the directory entries whose name
    ends in ".gguf", in directory order, each with its name, the path
    "models" joined with the name, and the size [fs.statSync] reports; if
    reading the directory or any of these [statSync] calls throws, the reply
    is 500 and no list is sent. *)
Theorem models_reply_lists_gguf_files (sep dir : string)
    (files : list string) (statSync : string → completion Z) :
  (∀ size : string → Z,
     (∀ f, f ∈ files → endsWith ".gguf" f = true →
           statSync (path_join sep dir f) = Returns (size f)) →
     list_models sep dir (Returns files) statSync
     = {| statusCode := 200;
          body := JArray (map (model_entry sep size)
                            (List.filter (endsWith ".gguf") files)) |})
  ∧ (∀ f text, f ∈ files → endsWith ".gguf" f = true →
               statSync (path_join sep dir f) = Throws text →
               ∃ text', list_models sep dir (Returns files) statSync
                        = {| statusCode := 500; body := error_body text' |})
  ∧ (∀ text, list_models sep dir (Throws text) statSync
             = {| statusCode := 500; body := error_body text |}).
Proof.
  split; [|split; [|done]].
  - intros size Hstat. unfold list_models.
    rewrite (model_entries_sized sep dir statSync size); [done|].
    intros f [Hin Hgguf]%elem_of_gguf. by apply Hstat.
  - intros f text Hin Hgguf Hthrow. unfold list_models.
    destruct (model_entries_throw sep dir statSync
                (List.filter (endsWith ".gguf") files) f text) as [text' ->];
      [by apply elem_of_gguf|done|eauto].
Qed.

Lemma model_entries_nonempty (sep dir : string)
    (statSync : string → completion Z) (f : string) (names : list string) :
  model_entries sep dir statSync (f :: names) ≠ Returns [].
Proof.
  simpl. destruct (statSync _); [|done].
  by destruct (model_entries sep dir statSync names).
Qed.

(** X17. The models endpoint and the start handler read the directory alike:
    for one directory listing, the models endpoint replies with the empty
    list exactly when a start request (binary found, status not
    ['running']) is refused with "No models found". *)
Theorem empty_listing_iff_start_refused (fd : gmap string FlagDefinition)
    (env : StartEnv) (flags : list (string * value)) (s : State)
    (sep path : string) (files : list string)
    (statSync : string → completion Z) :
  serverStatus s ≠ running →
  checkLlamaServer env = Some path →
  readdirSync env = Returns files →
  (body (list_models sep (MODELS_DIR env) (readdirSync env) statSync)
   = JArray []
   ↔ reply (start_server fd env flags s) = no_models_reply (MODELS_DIR env)).
Proof.
  intros Hrun Hpath Hdir. unfold list_models, start_server.
  rewrite decide_False by done. rewrite Hpath, Hdir.
  destruct (List.filter (endsWith ".gguf") files) as [|f names] eqn:Hf.
  - by simpl.
  - pose proof (model_entries_nonempty sep (MODELS_DIR env) statSync f names)
      as Hne.
    cbn [length Nat.eqb]. split.
    + destruct (model_entries _ _ _ _) as [l|text]; simpl; [|done].
      intros [= ->]. done.
    + destruct (_ && _); [done|].
      destruct (build_command fd flags) as [args|text]; [|done].
      by destruct (spawn env path args) as [[p|]|text].
Qed.

Lemma empty_listing_iff_start_refused_witness :
  let env := {| checkLlamaServer := Some "bin/llama-server";
                MODELS_DIR := "models";
                readdirSync := Returns ["README.md"];
                spawn := fun _ _ => Returns (Some 101) |} in
  (serverStatus initial ≠ running
   ∧ checkLlamaServer env = Some "bin/llama-server"
   ∧ readdirSync env = Returns ["README.md"])
  ∧ (body (list_models "/" (MODELS_DIR env) (readdirSync env)
             (fun _ => Returns 0))
     = JArray []
     ↔ reply (start_server threads_schema env model_selected initial)
       = no_models_reply (MODELS_DIR env)).
Proof.
  split; [by repeat split|].
  apply (empty_listing_iff_start_refused threads_schema _ model_selected
           initial "/" "bin/llama-server" ["README.md"] (fun _ => Returns 0));
    [discriminate|reflexivity|reflexivity].
Defined.

(** ** The installer *)

Lemma first_line_cons (b : Ascii.ascii) (s : string) :
  Install.first_line (String b s) = ""
  ∨ Install.first_line (String b s) = String b (Install.first_line s).
Proof.
  cbn [Install.first_line]. destruct (_ || _); [by left|].
  destruct (_ && _); [by left|by right].
Qed.

Lemma find_ci_empty (literal s : string) :
  Install.find_ci literal "" = true → Install.find_ci literal s = true.
Proof.
  destruct literal; [|done]. intros _. by destruct s.
Qed.

Lemma starts_with_first_line (literal s : string) :
  Install.starts_with_ci literal (Install.first_line s) = true →
  Install.starts_with_ci literal s = true.
Proof.
  revert s. induction literal as [|a literal IH]; intros s; [done|].
  destruct s as [|b s]; [done|].
  destruct (first_line_cons b s) as [-> | ->]; [done|].
  cbn [Install.starts_with_ci].
  intros [Hab Hrest]%andb_true_iff. rewrite Hab. simpl. by apply IH.
Qed.

Lemma find_ci_first_line (literal s : string) :
  Install.find_ci literal (Install.first_line s) = true →
  Install.find_ci literal s = true.
Proof.
  induction s as [|b s IH]; [done|].
  pose proof (starts_with_first_line literal (String b s)) as Hstart.
  destruct (first_line_cons b s) as [Hline|Hline]; rewrite Hline in *.
  - apply find_ci_empty.
  - cbn [Install.find_ci].
    intros [Hhere|Hlater]%orb_true_iff; apply orb_true_iff; auto.
Qed.

Lemma find_ci_skip (literal : string) (n : nat) (s : string) :
  Install.find_ci literal (Install.skip n s) = true →
  Install.find_ci literal s = true.
Proof.
  revert s. induction n as [|n IH]; intros s; [done|].
  destruct s as [|b s]; [done|]. cbn [Install.skip]. intros H%IH.
  cbn [Install.find_ci]. rewrite H. apply orb_true_r.
Qed.

(** Whatever [before.*after] matches contains [after]. *)
Lemma find_around_find_ci (before after s : string) :
  Install.find_around before after s = true →
  Install.find_ci after s = true.
Proof.
  induction s as [|b s IH]; cbn [Install.find_around].
  - rewrite orb_false_r. intros [_ H]%andb_true_iff.
    apply find_ci_first_line in H. by apply find_ci_skip in H.
  - intros [[_ H]%andb_true_iff|H]%orb_true_iff.
    + apply find_ci_first_line in H. by apply find_ci_skip in H.
    + cbn [Install.find_ci]. rewrite (IH H). apply orb_true_r.
Qed.

Lemma find_ci_tail (c : Ascii.ascii) (literal s : string) :
  Install.find_ci (String c literal) s = true →
  Install.find_ci literal s = true.
Proof.
  induction s as [|b s IH]; [done|]. cbn [Install.find_ci].
  intros [Hhere|Hlater]%orb_true_iff; apply orb_true_iff; right.
  - cbn [Install.starts_with_ci] in Hhere.
    apply andb_true_iff in Hhere as [_ Hrest].
    destruct s; cbn [Install.find_ci]; by rewrite Hrest.
  - by apply IH.
Qed.

(** A name that contains a literal contains each of its endings. *)
Lemma find_ci_ending (n : nat) (literal s : string) :
  Install.find_ci literal s = true →
  Install.find_ci (Install.skip n literal) s = true.
Proof.
  revert literal. induction n as [|n IH]; intros literal; [done|].
  destruct literal as [|c literal]; [done|]. cbn [Install.skip].
  intros H%find_ci_tail. by apply IH.
Qed.

(** Every pattern of a platform is, or implies, one of its tags. *)
Lemma pattern_has_tag (platform : Install.Platform)
    (pattern : Install.Pattern) (s : string) :
  pattern ∈ Install.patterns platform →
  Install.test pattern s = true →
  ∃ tag, tag ∈ platform_tags platform ∧ Install.find_ci tag s = true.
Proof.
  intros Hin Htest.
  destruct platform; cbn [Install.patterns platform_tags] in *;
    repeat (apply elem_of_cons in Hin as [->|Hin]);
    try (by apply not_elem_of_nil in Hin);
    cbn [Install.test] in Htest;
    try apply find_around_find_ci in Htest;
    first [ by eexists; split; [apply list_elem_of_here|exact Htest]
          | by eexists; split;
              [apply list_elem_of_further, list_elem_of_here|exact Htest]
          | by eexists; split;
              [apply list_elem_of_here|exact (find_ci_ending 1 _ _ Htest)]
          | by eexists; split;
              [apply list_elem_of_here|exact (find_ci_ending 5 _ _ Htest)]
          | by eexists; split;
              [apply list_elem_of_further, list_elem_of_here
              |exact (find_ci_ending 5 _ _ Htest)] ].
Qed.

Lemma tag_is_pattern (platform : Install.Platform) (tag : string) :
  tag ∈ platform_tags platform →
  Install.Literal tag ∈ Install.patterns platform.
Proof.
  destruct platform; cbn [Install.patterns platform_tags]; intros Hin;
    repeat (apply elem_of_cons in Hin as [->|Hin]);
    try (by apply not_elem_of_nil in Hin);
    repeat first [apply list_elem_of_here | apply list_elem_of_further].
Qed.

Lemma first_wanted_some (assets : list Install.Asset)
    (searchPatterns : list Install.Pattern) (a : Install.Asset) :
  Install.first_wanted assets searchPatterns = Some a →
  ∃ pattern, pattern ∈ searchPatterns ∧ a ∈ assets
             ∧ Install.wanted pattern a = true.
Proof.
  induction searchPatterns as [|pattern rest IH]; simpl; [done|].
  destruct (List.find (Install.wanted pattern) assets) as [b|] eqn:Hfind.
  - intros [= ->]. apply find_some in Hfind as [Hin Hwanted].
    exists pattern. split; [apply list_elem_of_here|].
    split; [by apply list_elem_of_In|done].
  - intros (p & Hp & Hrest)%IH. exists p.
    split; [by apply list_elem_of_further|done].
Qed.

Lemma first_wanted_none (assets : list Install.Asset)
    (searchPatterns : list Install.Pattern) :
  Install.first_wanted assets searchPatterns = None
  ↔ ∀ pattern a, pattern ∈ searchPatterns → a ∈ assets →
                 Install.wanted pattern a = false.
Proof.
  induction searchPatterns as [|pattern rest IH]; simpl.
  - split; [|done]. by intros _ pattern a ?%not_elem_of_nil.
  - destruct (List.find (Install.wanted pattern) assets) as [b|] eqn:Hfind.
    + split; [done|]. intros Hall. apply find_some in Hfind as [Hin Hwanted].
      rewrite Hall in Hwanted; [done|apply list_elem_of_here|].
      by apply list_elem_of_In.
    + rewrite IH. split.
      * intros Hrest p a [->|Hp]%elem_of_cons Ha; [|by apply Hrest].
        apply list_elem_of_In in Ha.
        pose proof (find_none _ _ Hfind a Ha) as Hnot. exact Hnot.
      * intros Hall p a Hp Ha. apply Hall; [|done].
        by apply list_elem_of_further.
Qed.

(** X18. The asset [findBinaryAsset] returns is one of the release's assets,
    its name ends in ".zip" or ".tar.gz" (so one of the two extraction
    branches handles it), and its name contains, in any letter case, a tag
    of the platform. *)
Theorem found_asset_is_tagged_archive
    (release_assets : option (list Install.Asset))
    (platform : Install.Platform) (a : Install.Asset) :
  Install.findBinaryAsset release_assets platform = Some a →
  a ∈ default [] release_assets
  ∧ archive a = true
  ∧ ∃ tag, tag ∈ platform_tags platform
           ∧ Install.find_ci tag (Install.name a) = true.
Proof.
  unfold Install.findBinaryAsset.
  intros (pattern & Hp & Hin & Hwanted)%first_wanted_some.
  apply andb_true_iff in Hwanted as [Htest Harchive].
  split; [exact Hin|]. split; [exact Harchive|].
  by apply (pattern_has_tag platform pattern).
Qed.

Lemma found_asset_is_tagged_archive_witness :
  let a := {| Install.name := "llama-b4500-bin-ubuntu-x64.zip";
              Install.browser_download_url := "https://example.org/ubuntu" |} in
  Install.findBinaryAsset (Some ubuntu_release) Install.linux_x64 = Some a
  ∧ a ∈ default [] (Some ubuntu_release)
  ∧ archive a = true
  ∧ ∃ tag, tag ∈ platform_tags Install.linux_x64
           ∧ Install.find_ci tag (Install.name a) = true.
Proof.
  split; [reflexivity|].
  exact (found_asset_is_tagged_archive (Some ubuntu_release) Install.linux_x64
           _ eq_refl).
Defined.

(** X19. [findBinaryAsset] returns [null] exactly when no asset of the
    release is an archive whose name contains a tag of the platform: the
    longer patterns only set the order of preference.  So it returns
    [null] for a release without assets, and for every release on
    ['windows-arm64'], which has no pattern. *)
Theorem no_asset_iff_no_tagged_archive :
  (∀ (release_assets : option (list Install.Asset))
     (platform : Install.Platform),
     Install.findBinaryAsset release_assets platform = None
     ↔ ∀ a tag, a ∈ default [] release_assets →
                tag ∈ platform_tags platform →
                Install.find_ci tag (Install.name a) && archive a = false)
  ∧ (∀ platform, Install.findBinaryAsset None platform = None)
  ∧ (∀ release_assets,
       Install.findBinaryAsset release_assets Install.windows_arm64 = None).
Proof.
  split; [|split; [by intros []|done]].
  intros release_assets platform. unfold Install.findBinaryAsset.
  rewrite first_wanted_none. split.
  - intros Hnone a tag Ha Htag.
    exact (Hnone (Install.Literal tag) a (tag_is_pattern platform tag Htag) Ha).
  - intros Hnone pattern a Hp Ha.
    destruct (Install.wanted pattern a) eqn:Hwanted; [|done].
    apply andb_true_iff in Hwanted as [Htest Harchive].
    destruct (pattern_has_tag platform pattern _ Hp Htest) as (tag & Htag & Hfind).
    specialize (Hnone a tag Ha Htag). unfold archive in Hnone.
    by rewrite Hfind, Harchive in Hnone.
Qed.

(** X20. On ['windows-x64'] the CUDA build wins: when some archive of the
    release has "win-cuda" in its name, the asset returned has it too,
    wherever the CPU build stands in the list. *)
Theorem cuda_build_is_preferred (assets : list Install.Asset) :
  (∃ a, a ∈ assets ∧ Install.find_ci "win-cuda" (Install.name a) = true
        ∧ archive a = true) →
  ∃ b, Install.findBinaryAsset (Some assets) Install.windows_x64 = Some b
       ∧ Install.find_ci "win-cuda" (Install.name b) = true.
Proof.
  intros (a & Ha & Hcuda & Harchive).
  unfold Install.findBinaryAsset. change (default [] (Some assets)) with assets.
  cbn [Install.patterns Install.first_wanted].
  destruct (List.find (Install.wanted (Install.Around "llama-" "-bin-win-cuda"))
              assets) as [b|] eqn:Hfull.
  - exists b. split; [done|]. apply find_some in Hfull as [_ Hwanted].
    apply andb_true_iff in Hwanted as [Htest _]. cbn [Install.test] in Htest.
    apply find_around_find_ci in Htest.
    exact (find_ci_ending 5 _ _ Htest).
  - destruct (List.find (Install.wanted (Install.Literal "win-cuda")) assets)
      as [b|] eqn:Hshort.
    + exists b. split; [done|]. apply find_some in Hshort as [_ Hwanted].
      by apply andb_true_iff in Hwanted as [Htest _].
    + apply list_elem_of_In in Ha.
      pose proof (find_none _ _ Hshort a Ha) as Hnot.
      unfold Install.wanted in Hnot. cbn [Install.test] in Hnot.
      unfold archive in Harchive. by rewrite Hcuda, Harchive in Hnot.
Qed.

Lemma cuda_build_is_preferred_witness :
  (∃ a, a ∈ windows_release
        ∧ Install.find_ci "win-cuda" (Install.name a) = true
        ∧ archive a = true)
  ∧ ∃ b, Install.findBinaryAsset (Some windows_release) Install.windows_x64
         = Some b
         ∧ Install.find_ci "win-cuda" (Install.name b) = true.
Proof.
  assert (∃ a, a ∈ windows_release
               ∧ Install.find_ci "win-cuda" (Install.name a) = true
               ∧ archive a = true) as Hcuda.
  { eexists. split; [apply list_elem_of_further, list_elem_of_here|].
    split; reflexivity. }
  split; [exact Hcuda|].
  exact (cuda_build_is_preferred windows_release Hcuda).
Defined.

(** X21. Platform detection: on Linux every architecture is taken for
    ['linux-x64']; on Windows every architecture other than x64 is taken for
    ['windows-arm64'], for which no release has an asset; on macOS every
    architecture other than arm64 is taken for ['macos-x64']; and any other
    operating system throws "Unsupported platform: " with the platform and
    the architecture. *)
Theorem platform_detection :
  (∀ arch, Install.getPlatform "linux" arch = Returns Install.linux_x64)
  ∧ (∀ arch release_assets,
       arch ≠ "x64" →
       ∃ platform,
         Install.getPlatform "win32" arch = Returns platform
         ∧ Install.platform_name platform = "windows-arm64"
         ∧ Install.findBinaryAsset release_assets platform = None)
  ∧ (∀ arch, arch ≠ "arm64" →
             Install.getPlatform "darwin" arch = Returns Install.macos_x64)
  ∧ (∀ platform arch,
       platform ≠ "win32" → platform ≠ "darwin" → platform ≠ "linux" →
       Install.getPlatform platform arch
       = Throws ("Unsupported platform: " +:+ platform +:+ "-" +:+ arch)).
Proof.
  split; [done|]. split; [|split].
  - intros arch release_assets Harch. exists Install.windows_arm64.
    unfold Install.getPlatform. simpl.
    by destruct (String.eqb_spec arch "x64").
  - intros arch Harch. unfold Install.getPlatform. simpl.
    by destruct (String.eqb_spec arch "arm64").
  - intros platform arch Hwin Hmac Hlinux. unfold Install.getPlatform.
    destruct (String.eqb_spec platform "win32"); [done|].
    destruct (String.eqb_spec platform "darwin"); [done|].
    by destruct (String.eqb_spec platform "linux").
Qed.

Lemma checkLlamaServer_none_iff (sep dir : string) (win32 : bool)
    (existsSync : string → bool) :
  Install.checkLlamaServer sep dir win32 existsSync = None
  ↔ ∀ p, p ∈ Install.possiblePaths sep dir win32 → existsSync p = false.
Proof.
  unfold Install.checkLlamaServer.
  generalize (Install.possiblePaths sep dir win32) as paths. intros paths.
  split.
  - intros Hnone p Hp%list_elem_of_In. exact (find_none _ _ Hnone p Hp).
  - intros Hall. destruct (List.find existsSync paths) as [p|] eqn:Hfind;
      [|done].
    apply find_some in Hfind as [Hin Hex]. apply list_elem_of_In in Hin.
    by rewrite (Hall p Hin) in Hex.
Qed.

(** X22. [checkLlamaServer] returns the first of its three candidates that
    exists (the binary under build/bin, then under build, then
    "llama-server" in the working directory), and [null] exactly when none
    of the three exists. *)
Theorem checkLlamaServer_returns_first_existing (sep dir : string)
    (win32 : bool) (existsSync : string → bool) :
  (∀ p, Install.checkLlamaServer sep dir win32 existsSync = Some p →
        p ∈ Install.possiblePaths sep dir win32 ∧ existsSync p = true)
  ∧ (Install.checkLlamaServer sep dir win32 existsSync = None
     ↔ ∀ p, p ∈ Install.possiblePaths sep dir win32 → existsSync p = false)
  ∧ (∀ before p after,
       Install.possiblePaths sep dir win32 = before ++ p :: after →
       existsSync p = true →
       (∀ q, q ∈ before → existsSync q = false) →
       Install.checkLlamaServer sep dir win32 existsSync = Some p).
Proof.
  split; [|split; [apply checkLlamaServer_none_iff|]];
    unfold Install.checkLlamaServer.
  - intros p [Hin Hex]%find_some. split; [by apply list_elem_of_In|done].
  - intros before p after -> Hp Hbefore.
    induction before as [|q before IH]; simpl.
    + by rewrite Hp.
    + rewrite (Hbefore q) by apply list_elem_of_here.
      apply IH. intros r Hr. apply Hbefore. by apply list_elem_of_further.
Qed.

(** X23. With [checkLlamaServer] as the installer defines it, a start request
    (status not ['running']) is refused with status 503 exactly when none of
    the three candidate files exists; the request body and the models
    directory play no part. *)
Theorem start_refused_503_iff_no_candidate
    (fd : gmap string FlagDefinition) (env : StartEnv)
    (flags : list (string * value)) (s : State) (sep dir : string)
    (win32 : bool) (existsSync : string → bool) :
  serverStatus s ≠ running →
  checkLlamaServer env = Install.checkLlamaServer sep dir win32 existsSync →
  (statusCode (reply (start_server fd env flags s)) = 503
   ↔ ∀ p, p ∈ Install.possiblePaths sep dir win32 → existsSync p = false).
Proof.
  intros Hrun Hcheck.
  destruct (checkLlamaServer_none_iff sep dir win32 existsSync) as [Hto Hfrom].
  unfold start_server. rewrite decide_False by done. rewrite Hcheck. split.
  - intros Hcode. apply Hto.
    destruct (Install.checkLlamaServer sep dir win32 existsSync) as [path|];
      [|done].
    destruct (readdirSync env); [|done].
    destruct (Nat.eqb _ _); [done|]. destruct (_ && _); [done|].
    destruct (build_command fd flags) as [args|text]; [|done].
    by destruct (spawn env path args) as [[p|]|text].
  - intros Hnone. by rewrite (Hfrom Hnone).
Qed.

Lemma start_refused_503_iff_no_candidate_witness :
  let env := {| checkLlamaServer := None;
                MODELS_DIR := "models";
                readdirSync := Returns ["tiny.gguf"];
                spawn := fun _ _ => Returns (Some 101) |} in
  let existsSync := fun _ : string => false in
  (serverStatus initial ≠ running
   ∧ checkLlamaServer env
     = Install.checkLlamaServer "/" "llama.cpp" false existsSync)
  ∧ (statusCode (reply (start_server threads_schema env model_selected initial))
     = 503
     ↔ ∀ p, p ∈ Install.possiblePaths "/" "llama.cpp" false →
            existsSync p = false).
Proof.
  split; [by split|].
  apply (start_refused_503_iff_no_candidate threads_schema _ model_selected
           initial "/" "llama.cpp" false (fun _ => false));
    [discriminate|reflexivity].
Defined.
